(** * FEAST_PtE: Bridger LiDAR survey simulation

    A shallow embedding of the detection model, the wind sampler, the two
    survey simulators, the clustering front end and the strategy aggregator of
    [MyCodetoRun/bridger_survey_realistic.py],
    [MyCodetoRun/bridger_spatial_survey.py] and
    [MyCodetoRun/survey_strategy_summary.py].

    Python floats are read as real numbers ([R], with [exp] and [ln] for
    [np.exp] and [np.log]); the one non-finite value the scripts produce on
    finite inputs, the NaN of a mean over an empty column, is kept as a
    separate constructor of [npfloat].  The one place where rounding decides
    a count, the product [n_wells * coverage_pct] that [simulate_survey]
    truncates, is taken in binary64.  The global generator [np.random],
    standard output and the TMY file are fields of an explicit [world] that
    every effectful function threads; exceptions are the [Raise] outcome. *)

From Stdlib Require Import Floats.
From Stdlib Require Import String Reals Lra Lia ZArith Bool List.
From Stdlib Require Import Permutation.
Import ListNotations.
Local Open Scope R_scope.
#[local] Set Warnings "-inexact-float".

(** ** Python runtime: exceptions, the world, the effect monad *)

Module py.

Inductive exn : Type :=
| FileNotFoundError (msg : string)
| ParserError (msg : string)
| ValueError (msg : string)
| IndexError (msg : string)
| InvalidParameterError (msg : string)
| OverflowError (msg : string).

(** [str(e)] *)
Definition exn_str (e : exn) : string :=
  match e with
  | FileNotFoundError m | ParserError m | ValueError m
  | IndexError m | InvalidParameterError m | OverflowError m => m
  end.

Inductive outcome (A : Type) : Type :=
| Ok (a : A)
| Raise (e : exn).
Arguments Ok {A} a.
Arguments Raise {A} e.

(** What sits at the path of the TMY file: nothing, a file [pd.read_csv]
    cannot parse, or a table of named columns ([None] is an empty cell). *)
Inductive tmy_source : Type :=
| Missing
| Unreadable (err : string)
| Csv (columns : list (string * list (option R))).

Record world : Type := mkWorld {
  fs : string -> tmy_source;   (* the files, by path *)
  tape : nat -> N;             (* the raw words np.random will produce *)
  pos : nat;                   (* how many have been consumed *)
  stdout : list string         (* the lines printed so far *)
}.

Definition M (A : Type) : Type := world -> outcome A * world.

Definition ret {A} (a : A) : M A := fun w => (Ok a, w).

Definition bind {A B} (m : M A) (k : A -> M B) : M B :=
  fun w => match m w with
           | (Ok a, w') => k a w'
           | (Raise e, w') => (Raise e, w')
           end.

Definition raise {A} (e : exn) : M A := fun w => (Raise e, w).

(** [try: body  except Exception as e: handler e] *)
Definition try_except {A} (body : M A) (handler : exn -> M A) : M A :=
  fun w => match body w with
           | (Ok a, w') => (Ok a, w')
           | (Raise e, w') => handler e w'
           end.

Definition print (line : string) : M unit :=
  fun w => (Ok tt, mkWorld (fs w) (tape w) (pos w) (stdout w ++ [line])).

(** [Path(p).exists()] *)
Definition path_exists (p : string) : M bool :=
  fun w => (Ok (match fs w p with Missing => false | _ => true end), w).

(** [int(x)] on a float truncates toward zero. *)
Definition int (x : R) : Z := if Rle_dec 0 x then Zfloor x else Zceil x.

(** [repr] of a list of strings, as [print] shows it. *)
Definition list_repr (l : list string) : string :=
  ("[" ++ String.concat ", " (map (fun s => "'" ++ s ++ "'") l) ++ "]")%string.

Definition Rleb (x y : R) : bool := if Rle_dec x y then true else false.
Definition Rltb (x y : R) : bool := if Rlt_dec x y then true else false.

(** An outcome computed without touching the world. *)
Definition lift {A} (o : outcome A) : M A := fun w => (o, w).

(** The binary64 float an int is converted to when it meets a float: the
    nearest one (exact below 2^53). *)
Definition float_of_nat (n : nat) : float :=
  SF2Prim (binary_normalize prec emax (Z.of_nat n) 0 false).

(** [int(x)] on a binary64 float: truncation toward zero; NaN and the
    infinities are refused. *)
Definition int_float (x : float) : outcome Z :=
  match Prim2SF x with
  | S754_zero _ => Ok 0%Z
  | S754_finite s m e =>
      let a := if (0 <=? e)%Z then (Z.pos m * 2 ^ e)%Z
               else (Z.pos m / 2 ^ (- e))%Z in
      Ok (if s then (- a)%Z else a)
  | S754_infinity _ =>
      Raise (OverflowError "cannot convert float infinity to integer")
  | S754_nan => Raise (ValueError "cannot convert float NaN to integer")
  end.

End py.

Import py.

Declare Scope py_scope.
Delimit Scope py_scope with py.
Notation "x <- m ;; k" := (bind m (fun x => k))
  (at level 61, m at next level, right associativity) : py_scope.
Notation "m ;;; k" := (bind m (fun _ => k))
  (at level 61, right associativity) : py_scope.
Local Open Scope py_scope.

(** [for x in xs: acc = body acc x] *)
Fixpoint for_each {A S} (xs : list A) (body : S -> A -> M S) (acc : S) : M S :=
  match xs with
  | [] => ret acc
  | x :: xs' => acc' <- body acc x ;; for_each xs' body acc'
  end.

Fixpoint mapM {A B} (f : A -> M B) (xs : list A) : M (list B) :=
  match xs with
  | [] => ret []
  | x :: xs' => y <- f x ;; ys <- mapM f xs' ;; ret (y :: ys)
  end.

(** ** numpy *)

Module np.

(** A float result that may be NaN. *)
Inductive npfloat : Type :=
| Finite (x : R)
| NaN.

(** [np.clip(x, lo, hi)] is [minimum(maximum(x, lo), hi)]. *)
Definition clip (x lo hi : R) : R := Rmin (Rmax x lo) hi.

(** [.sum()]: the sum of a column, [0.0] on an empty one. *)
Definition sum (l : list R) : R := fold_right Rplus 0 l.

Definition sumZ (l : list Z) : Z := fold_right Z.add 0%Z l.

(** [.mean()] and [np.mean]: NaN on an empty column. *)
Definition mean (l : list R) : npfloat :=
  match l with
  | [] => NaN
  | _ :: _ => Finite (sum l / INR (length l))
  end.

(** Elementwise product of two columns of one frame. *)
Fixpoint mul (xs : list R) (ds : list Z) : list R :=
  match xs, ds with
  | x :: xs', d :: ds' => x * IZR d :: mul xs' ds'
  | _, _ => []
  end.

(** [np.radians] *)
Definition radians (x : R) : R := x * PI / 180.

(** [np.sqrt]: NaN below zero. *)
Definition sqrt (x : R) : npfloat :=
  if Rlt_dec x 0 then NaN else Finite (R_sqrt.sqrt x).

(** [np.arcsin]: NaN outside [-1, 1]. *)
Definition arcsin (x : R) : npfloat :=
  if Rle_dec (-1) x then
    if Rle_dec x 1 then Finite (asin x) else NaN
  else NaN.

End np.

(** ** The global generator [np.random] *)

Module np_random.

Definition raw : M N :=
  fun w => (Ok (tape w (pos w)),
            mkWorld (fs w) (tape w) (S (pos w)) (stdout w)).

(** [random_sample()]: a 53-bit word scaled into [0, 1). *)
Definition random_sample : M R :=
  r <- raw ;; ret (IZR (Z.of_N (r mod 2 ^ 53)) / IZR (2 ^ 53)).

(** [np.random.uniform(low, high)] *)
Definition uniform (low high : R) : M R :=
  u <- random_sample ;; ret (low + (high - low) * u).

(** An index below [n] (for [n > 0]). *)
Definition randbelow (n : nat) : M nat :=
  r <- raw ;; ret (N.to_nat (r mod N.of_nat n)).

(** [np.random.choice(a)] on a 1-D array. *)
Definition choice (a : list R) : M R :=
  match a with
  | [] => raise (ValueError "'a' cannot be empty unless no samples are taken")
  | x :: _ => i <- randbelow (length a) ;; ret (nth i a x)
  end.

(** [np.random.permutation]: draw the elements one by one. *)
Fixpoint permutation {A} (n : nat) (l : list A) : M (list A) :=
  match n, l with
  | S n', x :: _ =>
      i <- randbelow (length l) ;;
      rest <- permutation n' (firstn i l ++ skipn (S i) l) ;;
      ret (nth i l x :: rest)
  | _, _ => ret []
  end.

(** [np.random.choice(a, size=size, replace=False)]:
    [permutation(a)[:size]], refused when [size] is negative or exceeds the
    population. *)
Definition choice_no_replace {A} (a : list A) (size : Z) : M (list A) :=
  if (size <? 0)%Z then
    raise (ValueError "negative dimensions are not allowed")
  else if (Z.of_nat (length a) <? size)%Z then
    raise (ValueError "Cannot take a larger sample than population when 'replace=False'")
  else
    p <- permutation (length a) a ;; ret (firstn (Z.to_nat size) p).

Definition valid_p (p : R) : bool := Rleb 0 p && Rleb p 1.

Definition bernoulli (p : R) : M Z :=
  u <- random_sample ;; ret (if Rltb u p then 1%Z else 0%Z).

(** [np.random.binomial(1, ps)] on a column of probabilities: every [p] is
    checked first, then one trial per entry. *)
Definition binomial1 (ps : list R) : M (list Z) :=
  if forallb valid_p ps then mapM bernoulli ps
  else raise (ValueError "p < 0, p > 1 or p is NaN").

End np_random.

(** ** pandas *)

Module pd.

(** [pd.read_csv(path)] *)
Definition read_csv (path : string) : M (list (string * list (option R))) :=
  fun w => match fs w path with
           | Missing => (Raise (FileNotFoundError path), w)
           | Unreadable err => (Raise (ParserError err), w)
           | Csv columns => (Ok columns, w)
           end.

Definition columns (df : list (string * list (option R))) : list string :=
  map fst df.

(** [name in df.columns] *)
Definition has_column (name : string) (df : list (string * list (option R))) : bool :=
  existsb (String.eqb name) (columns df).

(** [df[name].dropna().values] (for a column that is there) *)
Definition dropna_values (name : string) (df : list (string * list (option R)))
  : list R :=
  match find (fun c => String.eqb name (fst c)) df with
  | Some (_, cells) =>
      flat_map (fun c => match c with Some x => [x] | None => [] end) cells
  | None => []
  end.

(** [df.iloc[indices]]: positional rows, [IndexError] out of bounds. *)
Fixpoint iloc {A} (df : list A) (indices : list nat) : M (list A) :=
  match indices with
  | [] => ret []
  | i :: rest =>
      match nth_error df i with
      | Some row => rows <- iloc df rest ;; ret (row :: rows)
      | None => raise (IndexError "positional indexers are out-of-bounds")
      end
  end.

(** [df[mask]] with a boolean mask: the rows where it is true; a mask of the
    wrong length is refused. *)
Definition boolean_index {A} (df : list A) (mask : list bool) : M (list A) :=
  if Nat.eqb (length mask) (length df) then
    ret (map fst (filter snd (combine df mask)))
  else raise (ValueError "Item wrong length").

End pd.

(** ** scikit-learn's DBSCAN estimator

    The estimator is external to the repository.  Its clustering proper is a
    parameter [dbscan_labels] of the model; what is written out is the
    parameter check that [fit] runs before it touches the data: [eps] must lie
    in the open interval (0, inf) and [min_samples] must be an integer
    of at least 1, otherwise [InvalidParameterError] is raised. *)

Module sklearn.

Definition validate_params (eps : R) (min_samples : Z) : outcome unit :=
  if Rle_dec eps 0 then
    Raise (InvalidParameterError "The 'eps' parameter of DBSCAN must be a float in the range (0.0, inf)")
  else if (min_samples <? 1)%Z then
    Raise (InvalidParameterError "The 'min_samples' parameter of DBSCAN must be an int in the range [1, inf)")
  else Ok tt.

Definition DBSCAN_fit (dbscan_labels : R -> Z -> list (R * R) -> list Z)
  (eps : R) (min_samples : Z) (X : list (R * R)) : outcome (list Z) :=
  match validate_params eps min_samples with
  | Raise e => Raise e
  | Ok _ => Ok (dbscan_labels eps min_samples X)
  end.

End sklearn.

(** ** [bridger_survey_realistic.py] *)

Module Realistic.

Definition POD_90_GPS : R := 1.27.
Definition LOGISTIC_STEEPNESS : R := 2.0.
Definition BASELINE_WIND_MS : R := 3.5.
Definition WIND_EXPONENT : R := -0.3.
Definition MIN_WIND_MS : R := 1.0.
Definition MAX_WIND_MS : R := 6.0.
Definition SURVEY_COVERAGE_PCT : float := 0.20.

Definition pod_bridger (emission_rate_kgph wind_speed_ms : R) : R :=
  let wind_factor := exp (WIND_EXPONENT * (wind_speed_ms - BASELINE_WIND_MS)) in
  let adjusted_threshold := POD_90_GPS * wind_factor in
  if Rle_dec emission_rate_kgph 0 then 0.0
  else
    let log_e := ln emission_rate_kgph in
    let log_threshold := ln adjusted_threshold in
    let exponent := LOGISTIC_STEEPNESS * (log_e - log_threshold) in
    let pod := 1.0 / (1.0 + exp (- exponent)) in
    np.clip pod 0.0 1.0.

Definition default_tmy_path : string := "../ExampleData/TMY-DataExample.csv".

(** The tail of the [try] block once the wind column is chosen. *)
Definition pick_flyable (wind_data : list R) : M R :=
  let flyable :=
    filter (fun x => Rleb MIN_WIND_MS x && Rleb x MAX_WIND_MS) wind_data in
  if Nat.eqb (length flyable) 0 then
    print "Warning: No flyable wind speeds in TMY. Using [1-6] m/s." ;;;
    np_random.uniform MIN_WIND_MS MAX_WIND_MS
  else np_random.choice flyable.

Definition sample_wind_from_tmy (tmy_path : string) : M R :=
  found <- path_exists tmy_path ;;
  if negb found then
    print ("Warning: TMY file not found at " ++ tmy_path
           ++ ". Using uniform [1-6] m/s distribution.")%string ;;;
    np_random.uniform MIN_WIND_MS MAX_WIND_MS
  else
    try_except
      (tmy_df <- pd.read_csv tmy_path ;;
       if pd.has_column "WindSpeed" tmy_df then
         pick_flyable (pd.dropna_values "WindSpeed" tmy_df)
       else if pd.has_column "wind_speed" tmy_df then
         pick_flyable (pd.dropna_values "wind_speed" tmy_df)
       else
         print ("Warning: Could not find wind column in TMY. Columns: "
                ++ list_repr (pd.columns tmy_df))%string ;;;
         np_random.uniform MIN_WIND_MS MAX_WIND_MS)
      (fun e =>
         print ("Error loading TMY: " ++ exn_str e
                ++ ". Using uniform [1-6] m/s.")%string ;;;
         np_random.uniform MIN_WIND_MS MAX_WIND_MS).

(** The dict [simulate_survey] returns. *)
Record results : Type := mkResults {
  wind_speed_ms : R;
  pods : list R;
  detected : list Z;
  emissions_sampled : R;
  emissions_detected : R;
  wells_sampled : nat;
  wells_detected : Z;
  avg_pod : np.npfloat
}.

(** [emissions_df] is its one column, ['emission_rate_kgph'];
    [n_wells * coverage_pct] is the binary64 product. *)
Definition simulate_survey (emissions_df : list R) (coverage_pct : float)
  : M results :=
  let n_wells := length emissions_df in
  n_survey <- lift (int_float (float_of_nat n_wells * coverage_pct)%float) ;;
  survey_indices <- np_random.choice_no_replace (seq 0 n_wells) n_survey ;;
  survey_wells <- pd.iloc emissions_df survey_indices ;;
  wind_speed <- sample_wind_from_tmy default_tmy_path ;;
  let pod := map (fun e => pod_bridger e wind_speed) survey_wells in
  detected <- np_random.binomial1 pod ;;
  ret {| wind_speed_ms := wind_speed;
         pods := pod;
         detected := detected;
         emissions_sampled := np.sum survey_wells;
         emissions_detected := np.sum (np.mul survey_wells detected);
         wells_sampled := length survey_wells;
         wells_detected := np.sumZ detected;
         avg_pod := np.mean pod |}.

End Realistic.

(** ** [bridger_spatial_survey.py] *)

Module Spatial.

Definition DBSCAN_EPS_KM : R := 0.8.
Definition DBSCAN_MIN_SAMPLES : Z := 2.
Definition POD_90_KGPH : R := 1.27.
Definition LOGISTIC_STEEPNESS : R := 2.0.
Definition BASELINE_WIND_MS : R := 3.5.
Definition WIND_EXPONENT : R := -0.3.
Definition MIN_WIND_MS : R := 1.0.
Definition MAX_WIND_MS : R := 6.0.
Definition PERMIAN_QUARTERLY_COVERAGE : R := 0.20.

(** A row of [gdf]: the coordinates and the emission column in use. *)
Record well : Type := mkWell {
  Latitude : R;
  Longitude : R;
  emission : R
}.

(** The radius in degrees handed to DBSCAN. *)
Definition eps_degrees (eps_km : R) : R := eps_km / 111.0.

(** The members of one cluster: [coords[labels == cluster_id]]. *)
Definition members (coords : list (R * R)) (labels : list Z) (cluster_id : Z)
  : list (R * R) :=
  map fst (filter (fun p => Z.eqb (snd p) cluster_id) (combine coords labels)).

Definition cluster_wells_dbscan
  (dbscan_labels : R -> Z -> list (R * R) -> list Z)
  (gdf : list well) (eps_km : R) (min_samples : Z)
  : outcome (list Z * list (Z * (np.npfloat * np.npfloat))) :=
  let coords := map (fun g => (Latitude g, Longitude g)) gdf in
  match sklearn.DBSCAN_fit dbscan_labels (eps_degrees eps_km) min_samples coords with
  | Raise e => Raise e
  | Ok labels =>
      let centroids :=
        map (fun cluster_id =>
               let m := members coords labels cluster_id in
               (cluster_id, (np.mean (map fst m), np.mean (map snd m))))
            (filter (fun cluster_id => negb (Z.eqb cluster_id (-1)))
                    (nodup Z.eq_dec labels)) in
      Ok (labels, centroids)
  end.

Definition pod_bridger (emission_rate_kgph wind_speed_ms : R) : R :=
  let wind_factor := exp (WIND_EXPONENT * (wind_speed_ms - BASELINE_WIND_MS)) in
  let adjusted_threshold := POD_90_KGPH * wind_factor in
  if Rle_dec emission_rate_kgph 0 then 0.0
  else
    let log_e := ln emission_rate_kgph in
    let log_threshold := ln adjusted_threshold in
    let exponent := LOGISTIC_STEEPNESS * (log_e - log_threshold) in
    let pod := 1.0 / (1.0 + exp (- exponent)) in
    np.clip pod 0.0 1.0.

Definition default_tmy_path : string := "../ExampleData/TMY-DataExample.csv".

Definition pick_flyable (wind_data : list R) : M R :=
  let flyable :=
    filter (fun x => Rleb MIN_WIND_MS x && Rleb x MAX_WIND_MS) wind_data in
  if Nat.eqb (length flyable) 0 then np_random.uniform MIN_WIND_MS MAX_WIND_MS
  else np_random.choice flyable.

(** As in the other script, without the warnings and with a bare [except]. *)
Definition sample_wind_from_tmy (tmy_path : string) : M R :=
  found <- path_exists tmy_path ;;
  if negb found then np_random.uniform MIN_WIND_MS MAX_WIND_MS
  else
    try_except
      (tmy_df <- pd.read_csv tmy_path ;;
       if pd.has_column "WindSpeed" tmy_df then
         pick_flyable (pd.dropna_values "WindSpeed" tmy_df)
       else if pd.has_column "wind_speed" tmy_df then
         pick_flyable (pd.dropna_values "wind_speed" tmy_df)
       else np_random.uniform MIN_WIND_MS MAX_WIND_MS)
      (fun _ => np_random.uniform MIN_WIND_MS MAX_WIND_MS).

(** The accumulators of [simulate_quarterly_survey]. *)
Record tally : Type := mkTally {
  total_wells : nat;
  total_emissions_sampled : R;
  detected_wells : Z;
  detected_emissions : R;
  pod_list : list R
}.

(** The dict [simulate_quarterly_survey] returns. *)
Record result : Type := mkResult {
  clusters_surveyed : nat;
  wells_surveyed : nat;
  emissions_surveyed_kgph : R;
  wind_speed_ms : R;
  avg_pod : np.npfloat;
  wells_detected : Z;
  emissions_detected_kgph : R
}.

(** One pass of the loop over [cluster_id_list]. *)
Definition survey_cluster (gdf : list well) (cluster_labels : list Z)
  (wind_speed : R) (t : tally) (cluster_id : Z) : M tally :=
  let mask := map (fun l => Z.eqb l cluster_id) cluster_labels in
  cluster_wells <- pd.boolean_index gdf mask ;;
  let pod := map (fun g => pod_bridger (emission g) wind_speed) cluster_wells in
  detected <- np_random.binomial1 pod ;;
  ret {| total_wells := total_wells t + length cluster_wells;
         total_emissions_sampled :=
           total_emissions_sampled t + np.sum (map emission cluster_wells);
         detected_wells := detected_wells t + np.sumZ detected;
         detected_emissions :=
           detected_emissions t
           + np.sum (np.mul (map emission cluster_wells) detected);
         pod_list := pod_list t ++ pod |}.

Definition simulate_quarterly_survey (gdf : list well) (cluster_labels : list Z)
  (cluster_id_list : list Z) : M result :=
  let t0 := {| total_wells := 0; total_emissions_sampled := 0.0;
               detected_wells := 0; detected_emissions := 0.0;
               pod_list := [] |} in
  wind_speed <- sample_wind_from_tmy default_tmy_path ;;
  t <- for_each cluster_id_list (survey_cluster gdf cluster_labels wind_speed) t0 ;;
  ret {| clusters_surveyed := length cluster_id_list;
         wells_surveyed := total_wells t;
         emissions_surveyed_kgph := total_emissions_sampled t;
         wind_speed_ms := wind_speed;
         avg_pod := match pod_list t with
                    | [] => np.Finite 0.0
                    | _ :: _ => np.mean (pod_list t)
                    end;
         wells_detected := detected_wells t;
         emissions_detected_kgph := detected_emissions t |}.

(** [main], the schedule: [quarterly_clusters = int(n_clusters * 0.20)]. *)
Definition quarterly_clusters (n_clusters : nat) : Z :=
  int (INR n_clusters * PERMIAN_QUARTERLY_COVERAGE).


(** *** Geodesy, survey time and the schedule of [main] *)

Definition PERMIAN_DAYS_PER_YEAR : R := 195.
Definition PERMIAN_SENSORS : R := 2.7.
Definition SURVEY_TIME_BASELINE_MIN : R := 2.
Definition SURVEY_TIME_PER_WELL_MIN : R := 0.5.

(** [R_earth] is the local [R = 6371]; a NaN from [np.sqrt] or [np.arcsin]
    propagates through the arithmetic. *)
Definition haversine_distance (lat1 lon1 lat2 lon2 : R) : np.npfloat :=
  let R_earth := 6371 in
  let phi1 := np.radians lat1 in
  let phi2 := np.radians lat2 in
  let delta_phi := np.radians (lat2 - lat1) in
  let delta_lambda := np.radians (lon2 - lon1) in
  let a := sin (delta_phi / 2) ^ 2
           + cos phi1 * cos phi2 * sin (delta_lambda / 2) ^ 2 in
  match np.sqrt a with
  | np.NaN => np.NaN
  | np.Finite s =>
      match np.arcsin s with
      | np.NaN => np.NaN
      | np.Finite t => let c := 2 * t in np.Finite (R_earth * c)
      end
  end.

Definition estimate_survey_time_per_cluster (gdf : list well)
  (cluster_labels : list Z) (cluster_id : Z) : R :=
  let mask := map (fun l => Z.eqb l cluster_id) cluster_labels in
  let n_wells := length (filter (fun b : bool => b) mask) in
  let survey_time :=
    SURVEY_TIME_BASELINE_MIN + INR n_wells * SURVEY_TIME_PER_WELL_MIN in
  survey_time.


(** [main]: [n_noise = (cluster_labels == -1).sum()]. *)
Definition n_noise (cluster_labels : list Z) : nat :=
  length (filter (fun l => Z.eqb l (-1)) cluster_labels).

(** [main]: the average cluster size, 0 without clusters. *)
Definition avg_wells_per_cluster (gdf : list well) (cluster_labels : list Z)
  (n_clusters : nat) : R :=
  if (0 <? n_clusters)%nat then
    (INR (length gdf) - INR (n_noise cluster_labels)) / INR n_clusters
  else 0.

(** [main]: the loop over [range(len(centroids))] that adds up the survey
    times. *)
Definition total_survey_time (gdf : list well) (cluster_labels : list Z)
  (n_clusters : nat) : R :=
  fold_left
    (fun total cluster_id =>
       total + estimate_survey_time_per_cluster gdf cluster_labels
                 (Z.of_nat cluster_id))
    (seq 0 n_clusters) 0.

Definition avg_survey_time (gdf : list well) (cluster_labels : list Z)
  (n_clusters : nat) : R :=
  if (0 <? n_clusters)%nat then
    total_survey_time gdf cluster_labels n_clusters / INR n_clusters
  else 0.

Definition time_per_quarter (gdf : list well) (cluster_labels : list Z)
  (n_clusters : nat) : R :=
  IZR (quarterly_clusters n_clusters)
  * avg_survey_time gdf cluster_labels n_clusters / 60.

Definition days_per_quarter (gdf : list well) (cluster_labels : list Z)
  (n_clusters : nat) : R :=
  time_per_quarter gdf cluster_labels n_clusters / 8.

(** The years to full coverage; [Never] is [np.inf]. *)
Inductive timeline : Type :=
| Years (y : R)
| Never.

Definition timeline_years (n_clusters : nat) : timeline :=
  if (0 <? quarterly_clusters n_clusters)%Z then
    Years ((INR n_clusters * PERMIAN_QUARTERLY_COVERAGE)
           / (IZR (quarterly_clusters n_clusters) / 4))
  else Never.

End Spatial.

(** ** [survey_strategy_summary.py] *)

Module Strategy.

Record strategy_result : Type := mkStrategy {
  strategy : string;
  annual_survey_pct : R;
  years : R;
  days_per_year : R;
  annual_detection_kgph : R;
  annual_mitigation_pct : R;
  cumulative_detection_5yr_kgph : R;
  cumulative_mitigation_5yr_pct : R
}.

Definition calculate_strategy (strategy_name : string)
  (annual_survey_pct years mean_detection_per_survey_kgph total_portfolio_kgph : R)
  : strategy_result :=
  let annual_detection :=
    (annual_survey_pct / 100.0) * mean_detection_per_survey_kgph
    * (total_portfolio_kgph / 100.0) in
  let cumulative_detection := annual_detection * years in
  let cumulative_pct := (cumulative_detection / total_portfolio_kgph) * 100.0 in
  let days_per_year := (annual_survey_pct / 100.0) * 108 in
  {| strategy := strategy_name;
     annual_survey_pct := annual_survey_pct;
     years := years;
     days_per_year := days_per_year;
     annual_detection_kgph := annual_detection;
     annual_mitigation_pct := (annual_detection / total_portfolio_kgph) * 100.0;
     cumulative_detection_5yr_kgph := cumulative_detection;
     cumulative_mitigation_5yr_pct := cumulative_pct |}.

(** [main], the cost-benefit loop: the annual cost in thousands of dollars
    and the cost per kg/h, [None] where ['N/A'] is printed. *)
Definition annual_cost (result : strategy_result) : R :=
  annual_survey_pct result / 20.0 * 500.

Definition cost_per_kgph (result : strategy_result) : option R :=
  if Rlt_dec 0 (annual_detection_kgph result) then
    Some ((annual_cost result * 1000) / annual_detection_kgph result)
  else None.

End Strategy.

(** ** Proof-side definitions *)

(** The logistic curve that [pod_bridger] evaluates. *)
Definition logistic (x : R) : R := 1 / (1 + exp (- x)).

(** Whether the wind source at a path is usable: a table with one of the two
    wind columns and at least one value inside the flyable envelope. *)
Definition flyable_values (src : tmy_source) : list R :=
  match src with
  | Csv df =>
      let keep :=
        filter (fun x => Rleb Realistic.MIN_WIND_MS x
                         && Rleb x Realistic.MAX_WIND_MS) in
      if pd.has_column "WindSpeed" df then keep (pd.dropna_values "WindSpeed" df)
      else if pd.has_column "wind_speed" df then keep (pd.dropna_values "wind_speed" df)
      else []
  | _ => []
  end.

Definition degraded (src : tmy_source) : bool :=
  match flyable_values src with [] => true | _ :: _ => false end.

(** The world after one more raw word of the generator was consumed. *)
Definition consume (w : world) : world :=
  mkWorld (fs w) (tape w) (S (pos w)) (stdout w).

(** The world after one more line was printed. *)
Definition say (w : world) (line : string) : world :=
  mkWorld (fs w) (tape w) (pos w) (stdout w ++ [line]).

(** The next unit draw of the generator. *)
Definition next_unit (w : world) : R :=
  IZR (Z.of_N (tape w (pos w) mod 2 ^ 53)) / IZR (2 ^ 53).

(** The value the wind sampler returns from a world: an entry of the flyable
    series when there is one, the uniform draw otherwise. *)
Definition wind_drawn (w : world) (src : tmy_source) : R :=
  match flyable_values src with
  | [] => Realistic.MIN_WIND_MS
          + (Realistic.MAX_WIND_MS - Realistic.MIN_WIND_MS) * next_unit w
  | x :: f =>
      nth (N.to_nat (tape w (pos w) mod N.of_nat (length (x :: f)))) (x :: f) x
  end.

(** The line [bridger_survey_realistic.py] prints when it falls back. *)
Definition realistic_warning (p : string) (src : tmy_source) : string :=
  match src with
  | Missing =>
      "Warning: TMY file not found at " ++ p
      ++ ". Using uniform [1-6] m/s distribution."
  | Unreadable err =>
      "Error loading TMY: " ++ err ++ ". Using uniform [1-6] m/s."
  | Csv df =>
      if pd.has_column "WindSpeed" df || pd.has_column "wind_speed" df
      then "Warning: No flyable wind speeds in TMY. Using [1-6] m/s."
      else "Warning: Could not find wind column in TMY. Columns: "
           ++ list_repr (pd.columns df)
  end%string.

(** What the loop of [simulate_quarterly_survey] keeps true of its
    accumulators. *)
Definition tally_ok (t : Spatial.tally) : Prop :=
  Spatial.detected_emissions t <= Spatial.total_emissions_sampled t /\
  (0 <= Spatial.detected_wells t <= Z.of_nat (Spatial.total_wells t))%Z.

(** Two concrete worlds: one with no TMY file, whose generator yields the
    word [2^52] (the unit draw 0.5) for ever, and one whose TMY file holds the
    single wind speed 3.5 m/s. *)
Definition world_missing : world :=
  mkWorld (fun _ => Missing) (fun _ => (2 ^ 52)%N) 0 [].


(** Scenario D: 20% annual coverage, 5 years, a yield of 230 kg/h per 1% and
    a portfolio of 55,389.2 kg/h. *)
Definition scenario_D : Strategy.strategy_result :=
  Strategy.calculate_strategy "Standard (20% annual)" 20 5 230 55389.2.

(** The wells of one cluster, [gdf[cluster_labels == cluster_id]]. *)
Definition cluster_rows (gdf : list Spatial.well) (cluster_labels : list Z)
  (cluster_id : Z) : list Spatial.well :=
  map fst (filter (fun p => Z.eqb (snd p) cluster_id) (combine gdf cluster_labels)).

(** A world whose TMY file has both wind columns, the first without a
    flyable value. *)
Definition world_two_columns : world :=
  mkWorld (fun _ => Csv [("WindSpeed"%string, [Some 7.5; None]);
                         ("wind_speed"%string, [Some 3.0])])
          (fun _ => 0%N) 0 [].

(** The real number a finite binary64 float stands for (0 for the others). *)
Definition float_value (x : float) : R :=
  match Prim2SF x with
  | S754_finite s m e =>
      (if s then -1 else 1) * IZR (Z.pos m)
      * (if (0 <=? e)%Z then IZR (2 ^ e) else / IZR (2 ^ (- e)))
  | _ => 0
  end.

(** The binary64 product that [simulate_survey] truncates. *)
Definition coverage_product (emissions_df : list R) (coverage_pct : float)
  : float :=
  (float_of_nat (length emissions_df) * coverage_pct)%float.

(** Coverage fractions used in the examples: [3 / 7] and [4 / 3] as
    Python computes them, 0.5 and 1.0. *)
Definition three_sevenths : float := (3 / 7)%float.
Definition full_coverage : float := 1%float.



(** ** The detection model *)

Lemma logistic_pos x : 0 < logistic x.
Proof.
  unfold logistic. pose proof (exp_pos (- x)).
  apply Rdiv_lt_0_compat; lra.
Qed.

Lemma logistic_lt_1 x : logistic x < 1.
Proof.
  unfold logistic. pose proof (exp_pos (- x)).
  apply Rmult_lt_reg_r with (1 + exp (- x)); [lra|].
  unfold Rdiv. rewrite Rmult_assoc, Rinv_l by lra. lra.
Qed.

Lemma logistic_increasing x y : x < y -> logistic x < logistic y.
Proof.
  intros Hxy. unfold logistic.
  pose proof (exp_pos (- x)). pose proof (exp_pos (- y)).
  assert (exp (- y) < exp (- x)) by (apply exp_increasing; lra).
  unfold Rdiv. rewrite !Rmult_1_l.
  apply Rinv_lt_contravar; [apply Rmult_lt_0_compat; lra | lra].
Qed.

Lemma logistic_0 : logistic 0 = 1 / 2.
Proof. unfold logistic. rewrite Ropp_0, exp_0. lra. Qed.

Lemma clip_unit_id x : 0 < x < 1 -> np.clip x 0.0 1.0 = x.
Proof.
  intros [H0 H1]. unfold np.clip.
  rewrite Rmax_left by lra. rewrite Rmin_left by lra. reflexivity.
Qed.

(** The two scripts carry the same detection model. *)
Lemma pod_bridger_same : Spatial.pod_bridger = Realistic.pod_bridger.
Proof. reflexivity. Qed.

(** For a positive emission rate the clamp is inactive and the curve is the
    logistic of [2 * (ln e - ln 1.27) + 0.6 * (w - 3.5)]. *)
Lemma pod_bridger_pos e w :
  0 < e ->
  Realistic.pod_bridger e w =
  logistic (2 * (ln e - ln 1.27) + 0.6 * (w - 3.5)).
Proof.
  intros He. unfold Realistic.pod_bridger.
  destruct (Rle_dec e 0) as [Hle|_]; [lra|].
  cbv zeta.
  unfold Realistic.POD_90_GPS, Realistic.WIND_EXPONENT,
    Realistic.BASELINE_WIND_MS, Realistic.LOGISTIC_STEEPNESS.
  rewrite ln_mult by (try apply exp_pos; lra).
  rewrite ln_exp.
  replace (1.0 / (1.0 + exp (- (2.0 * (ln e - (ln 1.27 + -0.3 * (w - 3.5)))))))
    with (logistic (2 * (ln e - ln 1.27) + 0.6 * (w - 3.5))).
  - apply clip_unit_id. split; [apply logistic_pos | apply logistic_lt_1].
  - unfold logistic. do 3 f_equal; lra.
Qed.

Lemma pod_bridger_nonpos e w : e <= 0 -> Realistic.pod_bridger e w = 0.
Proof.
  intros He. unfold Realistic.pod_bridger.
  destruct (Rle_dec e 0); [lra | contradiction].
Qed.

Lemma pod_bridger_range e w : 0 <= Realistic.pod_bridger e w <= 1.
Proof.
  destruct (Rle_dec e 0) as [He|He].
  - rewrite pod_bridger_nonpos by assumption. lra.
  - rewrite pod_bridger_pos by lra.
    pose proof (logistic_pos (2 * (ln e - ln 1.27) + 0.6 * (w - 3.5))).
    pose proof (logistic_lt_1 (2 * (ln e - ln 1.27) + 0.6 * (w - 3.5))).
    lra.
Qed.

(** C3. For every emission rate and every wind speed, [pod_bridger] (in both
    scripts) returns a value in the closed interval [0, 1], and it returns
    exactly 0 whenever the emission rate is not positive. *)
Theorem pod_bridger_unit_interval (e w : R) :
  (0 <= Realistic.pod_bridger e w <= 1) /\
  (0 <= Spatial.pod_bridger e w <= 1) /\
  (e <= 0 -> Realistic.pod_bridger e w = 0 /\ Spatial.pod_bridger e w = 0).
Proof.
  rewrite pod_bridger_same.
  repeat split; try apply pod_bridger_range; now apply pod_bridger_nonpos.
Qed.

Lemma pod_bridger_unit_interval_witness :
  (0 <= Realistic.pod_bridger (-1) 3 <= 1) /\
  (0 <= Spatial.pod_bridger (-1) 3 <= 1) /\
  Realistic.pod_bridger (-1) 3 = 0 /\ Spatial.pod_bridger (-1) 3 = 0.
Proof.
  destruct (pod_bridger_unit_interval (-1) 3) as (H1 & H2 & H3).
  split; [exact H1 | split; [exact H2 | apply H3; lra]].
Defined.

(** C7. At a fixed wind speed, [pod_bridger] is monotone non-decreasing in the
    emission rate over positive rates, and strictly increasing (the clamp is
    never reached in real arithmetic). *)
Theorem pod_bridger_monotone_emission (w e1 e2 : R) :
  0 < e1 -> e1 < e2 ->
  (Realistic.pod_bridger e1 w <= Realistic.pod_bridger e2 w /\
   Spatial.pod_bridger e1 w <= Spatial.pod_bridger e2 w) /\
  (Realistic.pod_bridger e1 w < Realistic.pod_bridger e2 w /\
   Spatial.pod_bridger e1 w < Spatial.pod_bridger e2 w).
Proof.
  intros H1 H12. rewrite pod_bridger_same.
  assert (Realistic.pod_bridger e1 w < Realistic.pod_bridger e2 w).
  { rewrite !pod_bridger_pos by lra.
    apply logistic_increasing.
    pose proof (ln_increasing e1 e2 H1 H12). lra. }
  lra.
Qed.

Lemma pod_bridger_monotone_emission_witness :
  (Realistic.pod_bridger 1 3.5 <= Realistic.pod_bridger 2 3.5 /\
   Spatial.pod_bridger 1 3.5 <= Spatial.pod_bridger 2 3.5) /\
  (Realistic.pod_bridger 1 3.5 < Realistic.pod_bridger 2 3.5 /\
   Spatial.pod_bridger 1 3.5 < Spatial.pod_bridger 2 3.5).
Proof. apply (pod_bridger_monotone_emission 3.5 1 2); lra. Defined.

(** C1 (as the code has it). At a fixed positive emission rate, [pod_bridger]
    is monotone non-decreasing in wind speed, and strictly increasing (the
    clamp is never reached in real arithmetic): a stronger wind lowers the
    adjusted threshold [1.27 * exp (-0.3 * (w - 3.5))]. *)
Theorem pod_bridger_monotone_wind (e w1 w2 : R) :
  0 < e -> w1 < w2 ->
  (Realistic.pod_bridger e w1 <= Realistic.pod_bridger e w2 /\
   Spatial.pod_bridger e w1 <= Spatial.pod_bridger e w2) /\
  (Realistic.pod_bridger e w1 < Realistic.pod_bridger e w2 /\
   Spatial.pod_bridger e w1 < Spatial.pod_bridger e w2).
Proof.
  intros He Hw. rewrite pod_bridger_same.
  assert (Realistic.pod_bridger e w1 < Realistic.pod_bridger e w2).
  { rewrite !pod_bridger_pos by lra. apply logistic_increasing. lra. }
  lra.
Qed.

Lemma pod_bridger_monotone_wind_witness :
  (Realistic.pod_bridger 1.27 3.5 <= Realistic.pod_bridger 1.27 4.5 /\
   Spatial.pod_bridger 1.27 3.5 <= Spatial.pod_bridger 1.27 4.5) /\
  (Realistic.pod_bridger 1.27 3.5 < Realistic.pod_bridger 1.27 4.5 /\
   Spatial.pod_bridger 1.27 3.5 < Spatial.pod_bridger 1.27 4.5).
Proof. apply (pod_bridger_monotone_wind 1.27 3.5 4.5); lra. Defined.

(** C1 as stated fails: at 1.27 kg/h the probability at 4.5 m/s is above the
    one at 3.5 m/s. *)
Lemma pod_bridger_wind_not_decreasing :
  0 < 1.27 /\ 3.5 < 4.5 /\
  ~ (Realistic.pod_bridger 1.27 3.5 >= Realistic.pod_bridger 1.27 4.5) /\
  ~ (Spatial.pod_bridger 1.27 3.5 >= Spatial.pod_bridger 1.27 4.5).
Proof.
  rewrite pod_bridger_same.
  assert (Realistic.pod_bridger 1.27 3.5 < Realistic.pod_bridger 1.27 4.5).
  { rewrite !pod_bridger_pos by lra. apply logistic_increasing. lra. }
  repeat split; lra.
Qed.

(** C8. At the calibration point (1.27 kg/h, 3.5 m/s) the adjusted threshold
    equals the emission rate and [pod_bridger] returns the logistic midpoint
    0.5, not 0.9. *)
Theorem pod_bridger_midpoint :
  Realistic.pod_bridger 1.27 3.5 = 0.5 /\
  Spatial.pod_bridger 1.27 3.5 = 0.5 /\
  Realistic.pod_bridger 1.27 3.5 <> 0.9.
Proof.
  rewrite pod_bridger_same.
  assert (H : Realistic.pod_bridger 1.27 3.5 = 0.5).
  { rewrite pod_bridger_pos by lra.
    replace (2 * (ln 1.27 - ln 1.27) + 0.6 * (3.5 - 3.5)) with 0 by lra.
    rewrite logistic_0. lra. }
  rewrite H. repeat split; lra.
Qed.

(** ** The strategy aggregator *)

(** C2 (what the code computes). For 20% annual coverage over 5 years, a yield
    of 230 kg/h per 1% and a portfolio of 55,389.2 kg/h, [calculate_strategy]
    returns an annual detection of 25,479.032 kg/h and a cumulative mitigation
    of 230%, far from 4,604 kg/h and 41.6%. *)
Theorem calculate_strategy_scenario_D :
  Strategy.annual_detection_kgph scenario_D = 25479.032 /\
  Strategy.cumulative_detection_5yr_kgph scenario_D = 127395.16 /\
  Strategy.cumulative_mitigation_5yr_pct scenario_D = 230 /\
  Strategy.annual_detection_kgph scenario_D - 4604 > 20000 /\
  Strategy.cumulative_mitigation_5yr_pct scenario_D - 41.6 > 188.
Proof.
  unfold scenario_D, Strategy.calculate_strategy. cbn.
  repeat split; lra.
Qed.

(** ** The generator *)

Lemma next_unit_range w : 0 <= next_unit w < 1.
Proof.
  unfold next_unit.
  set (r := tape w (pos w)).
  assert (Hlt : (r mod 2 ^ 53 < 2 ^ 53)%N) by (apply N.mod_lt; discriminate).
  assert (H0 : (0 <= Z.of_N (r mod 2 ^ 53))%Z) by apply N2Z.is_nonneg.
  assert (H1 : (Z.of_N (r mod 2 ^ 53) < 2 ^ 53)%Z).
  { change (2 ^ 53)%Z with (Z.of_N (2 ^ 53)). now apply N2Z.inj_lt. }
  apply IZR_le in H0. apply IZR_lt in H1.
  assert (Hp : 0 < IZR (2 ^ 53)) by (apply IZR_lt; reflexivity).
  split.
  - apply Rmult_le_reg_r with (IZR (2 ^ 53)); [exact Hp|].
    unfold Rdiv. rewrite Rmult_assoc, Rinv_l by lra. lra.
  - apply Rmult_lt_reg_r with (IZR (2 ^ 53)); [exact Hp|].
    unfold Rdiv. rewrite Rmult_assoc, Rinv_l by lra. lra.
Qed.

Lemma uniform_run lo hi w :
  np_random.uniform lo hi w = (Ok (lo + (hi - lo) * next_unit w), consume w).
Proof. reflexivity. Qed.

Lemma randbelow_run n w :
  np_random.randbelow n w =
  (Ok (N.to_nat (tape w (pos w) mod N.of_nat n)), consume w).
Proof. reflexivity. Qed.

Lemma randbelow_lt n w :
  (0 < n)%nat -> (N.to_nat (tape w (pos w) mod N.of_nat n) < n)%nat.
Proof.
  intros Hn.
  assert ((tape w (pos w) mod N.of_nat n < N.of_nat n)%N) by (apply N.mod_lt; lia).
  lia.
Qed.

Lemma choice_run a w :
  a <> [] ->
  exists v, np_random.choice a w = (Ok v, consume w) /\ In v a.
Proof.
  destruct a as [|x a']; [congruence|]. intros _.
  unfold np_random.choice, bind. rewrite randbelow_run. cbn [ret].
  eexists. split; [reflexivity|].
  apply nth_In. apply randbelow_lt. cbn. lia.
Qed.

(** ** The wind sampler *)

Lemma flyable_in_envelope l v :
  In v (filter (fun x => Rleb Realistic.MIN_WIND_MS x
                         && Rleb x Realistic.MAX_WIND_MS) l) ->
  1 <= v <= 6.
Proof.
  intros H. apply filter_In in H. destruct H as [_ H].
  apply andb_true_iff in H. destruct H as [Ha Hb].
  unfold Rleb, Realistic.MIN_WIND_MS, Realistic.MAX_WIND_MS in *.
  destruct (Rle_dec 1.0 v); [|discriminate].
  destruct (Rle_dec v 6.0); [|discriminate]. lra.
Qed.

Lemma uniform_in_envelope w :
  1 <= Realistic.MIN_WIND_MS
       + (Realistic.MAX_WIND_MS - Realistic.MIN_WIND_MS) * next_unit w < 6.
Proof.
  pose proof (next_unit_range w).
  unfold Realistic.MIN_WIND_MS, Realistic.MAX_WIND_MS. lra.
Qed.

Lemma realistic_pick_flyable_spec l w :
  let flyable := filter (fun x => Rleb Realistic.MIN_WIND_MS x
                                  && Rleb x Realistic.MAX_WIND_MS) l in
  match flyable with
  | [] => Realistic.pick_flyable l w =
          (Ok (Realistic.MIN_WIND_MS
               + (Realistic.MAX_WIND_MS - Realistic.MIN_WIND_MS) * next_unit w),
           consume (say w "Warning: No flyable wind speeds in TMY. Using [1-6] m/s."))
  | _ :: _ => exists v, Realistic.pick_flyable l w = (Ok v, consume w) /\ In v flyable
  end.
Proof.
  intros flyable. unfold Realistic.pick_flyable. fold flyable.
  destruct flyable as [|x f] eqn:E.
  - reflexivity.
  - cbn [length Nat.eqb]. apply choice_run. discriminate.
Qed.

Lemma realistic_sample_wind_run p w :
  Realistic.sample_wind_from_tmy p w =
  (Ok (wind_drawn w (fs w p)),
   consume (if degraded (fs w p) then say w (realistic_warning p (fs w p)) else w)).
Proof.
  unfold Realistic.sample_wind_from_tmy, bind, path_exists, try_except,
    pd.read_csv, wind_drawn, degraded, flyable_values, realistic_warning.
  destruct (fs w p) as [|err|df] eqn:E; cbn [negb]; cbv beta; rewrite ?E;
    try reflexivity.
  destruct (pd.has_column "WindSpeed" df) eqn:H1;
    [|destruct (pd.has_column "wind_speed" df) eqn:H2]; cbn [orb];
    unfold Realistic.pick_flyable;
    try (match goal with
         | |- context [filter ?f ?l] => destruct (filter f l) eqn:F
         end);
    reflexivity.
Qed.

Lemma spatial_sample_wind_run p w :
  Spatial.sample_wind_from_tmy p w = (Ok (wind_drawn w (fs w p)), consume w).
Proof.
  unfold Spatial.sample_wind_from_tmy, bind, path_exists, try_except,
    pd.read_csv, wind_drawn, degraded, flyable_values, Spatial.pick_flyable.
  change Spatial.MIN_WIND_MS with Realistic.MIN_WIND_MS.
  change Spatial.MAX_WIND_MS with Realistic.MAX_WIND_MS.
  destruct (fs w p) as [|err|df] eqn:E; cbn [negb]; cbv beta; rewrite ?E;
    try reflexivity.
  destruct (pd.has_column "WindSpeed" df) eqn:H1;
    [|destruct (pd.has_column "wind_speed" df) eqn:H2];
    unfold Spatial.pick_flyable;
    try (match goal with
         | |- context [filter ?f ?l] => destruct (filter f l) eqn:F
         end);
    reflexivity.
Qed.

Lemma wind_drawn_flyable w src :
  degraded src = false -> In (wind_drawn w src) (flyable_values src).
Proof.
  unfold degraded, wind_drawn. destruct (flyable_values src) as [|x f]; [discriminate|].
  intros _. apply nth_In. apply randbelow_lt. cbn. lia.
Qed.

Lemma wind_drawn_uniform w src :
  degraded src = true ->
  wind_drawn w src =
  Realistic.MIN_WIND_MS
  + (Realistic.MAX_WIND_MS - Realistic.MIN_WIND_MS) * next_unit w.
Proof.
  unfold degraded, wind_drawn. destruct (flyable_values src); [reflexivity|discriminate].
Qed.

Lemma flyable_values_in_envelope src v :
  In v (flyable_values src) -> 1 <= v <= 6.
Proof.
  unfold flyable_values. destruct src as [|err|df]; try contradiction.
  destruct (pd.has_column "WindSpeed" df);
    [|destruct (pd.has_column "wind_speed" df)];
    try contradiction; apply flyable_in_envelope.
Qed.

Lemma wind_drawn_range w src : 1 <= wind_drawn w src <= 6.
Proof.
  destruct (degraded src) eqn:D.
  - rewrite wind_drawn_uniform by assumption.
    pose proof (uniform_in_envelope w). lra.
  - apply flyable_values_in_envelope with src. now apply wind_drawn_flyable.
Qed.

(** ** Sampling without replacement, positional indexing, Bernoulli trials *)

Lemma in_firstn {A} n (l : list A) y : In y (firstn n l) -> In y l.
Proof.
  intros H. rewrite <- (firstn_skipn n l). apply in_or_app. now left.
Qed.

Lemma in_skipn {A} n (l : list A) y : In y (skipn n l) -> In y l.
Proof.
  intros H. rewrite <- (firstn_skipn n l). apply in_or_app. now right.
Qed.

Lemma permutation_run {A} n (l : list A) w :
  exists p w',
    np_random.permutation n l w = (Ok p, w') /\
    length p = Nat.min n (length l) /\ incl p l.
Proof.
  revert l w. induction n as [|n IH]; intros l w.
  - exists [], w. cbn. repeat split. apply incl_nil_l.
  - destruct l as [|x l'].
    + exists [], w. cbn. repeat split. apply incl_nil_l.
    + cbn [np_random.permutation]. unfold bind at 1. rewrite randbelow_run.
      set (l := x :: l').
      set (i := N.to_nat (tape w (pos w) mod N.of_nat (length l))).
      assert (Hi : (i < length l)%nat) by (apply randbelow_lt; cbn; lia).
      destruct (IH (firstn i l ++ skipn (S i) l) (consume w))
        as (rest & w' & Hrun & Hlen & Hincl).
      exists (nth i l x :: rest), w'. split; [|split].
      * unfold bind. rewrite Hrun. reflexivity.
      * cbn [length]. rewrite Hlen, length_app, length_firstn, length_skipn.
        lia.
      * intros y [Hy|Hy].
        -- subst y. now apply nth_In.
        -- apply Hincl in Hy. apply in_app_or in Hy. destruct Hy as [Hy|Hy].
           ++ eapply in_firstn; eauto.
           ++ eapply in_skipn; eauto.
Qed.

Lemma choice_no_replace_run {A} (a : list A) size w :
  (0 <= size <= Z.of_nat (length a))%Z ->
  exists sel w',
    np_random.choice_no_replace a size w = (Ok sel, w') /\
    length sel = Z.to_nat size /\ incl sel a.
Proof.
  intros Hs. unfold np_random.choice_no_replace.
  destruct (Z.ltb_spec size 0); [lia|].
  destruct (Z.ltb_spec (Z.of_nat (length a)) size); [lia|].
  destruct (permutation_run (length a) a w) as (p & w' & Hrun & Hlen & Hincl).
  exists (firstn (Z.to_nat size) p), w'. split; [|split].
  - unfold bind. rewrite Hrun. reflexivity.
  - rewrite length_firstn, Hlen. lia.
  - intros y Hy. apply Hincl. eapply in_firstn; eauto.
Qed.

Lemma choice_no_replace_raises {A} (a : list A) size w :
  ~ (0 <= size <= Z.of_nat (length a))%Z ->
  exists e, np_random.choice_no_replace a size w = (Raise e, w).
Proof.
  intros Hs. unfold np_random.choice_no_replace.
  destruct (Z.ltb_spec size 0); [eexists; reflexivity|].
  destruct (Z.ltb_spec (Z.of_nat (length a)) size); [eexists; reflexivity|lia].
Qed.

Lemma iloc_run {A} (df : list A) indices w :
  (forall i, In i indices -> (i < length df)%nat) ->
  exists rows,
    pd.iloc df indices w = (Ok rows, w) /\
    length rows = length indices /\ incl rows df.
Proof.
  induction indices as [|i rest IH]; intros Hin.
  - exists []. cbn. repeat split. apply incl_nil_l.
  - destruct IH as (rows & Hrun & Hlen & Hincl).
    { intros j Hj. apply Hin. now right. }
    assert (Hi : (i < length df)%nat) by (apply Hin; now left).
    destruct (nth_error df i) as [row|] eqn:E.
    + exists (row :: rows). cbn [pd.iloc]. rewrite E. unfold bind. rewrite Hrun.
      repeat split; cbn; [lia|].
      intros y [Hy|Hy]; [subst; eapply nth_error_In; eauto | now apply Hincl].
    + apply nth_error_None in E. lia.
Qed.

Lemma bernoulli_run p w :
  np_random.bernoulli p w =
  (Ok (if Rltb (next_unit w) p then 1 else 0)%Z, consume w).
Proof. reflexivity. Qed.

Lemma mapM_bernoulli_run ps w :
  exists ds w',
    mapM np_random.bernoulli ps w = (Ok ds, w') /\
    length ds = length ps /\ Forall (fun d => d = 0 \/ d = 1)%Z ds.
Proof.
  revert w. induction ps as [|p ps IH]; intros w.
  - exists [], w. cbn. repeat split. constructor.
  - destruct (IH (consume w)) as (ds & w' & Hrun & Hlen & Hbits).
    exists ((if Rltb (next_unit w) p then 1 else 0)%Z :: ds), w'.
    split; [|split].
    + cbn [mapM]. unfold bind at 1. rewrite bernoulli_run.
      unfold bind. rewrite Hrun. reflexivity.
    + cbn. lia.
    + constructor; [destruct (Rltb _ _); auto | exact Hbits].
Qed.

Lemma binomial1_run ps w :
  Forall (fun p => 0 <= p <= 1) ps ->
  exists ds w',
    np_random.binomial1 ps w = (Ok ds, w') /\
    length ds = length ps /\ Forall (fun d => d = 0 \/ d = 1)%Z ds.
Proof.
  intros Hps. unfold np_random.binomial1.
  assert (E : forallb np_random.valid_p ps = true).
  { apply forallb_forall. intros p Hp.
    rewrite Forall_forall in Hps. specialize (Hps p Hp).
    unfold np_random.valid_p, Rleb.
    destruct (Rle_dec 0 p); [|lra]. destruct (Rle_dec p 1); [reflexivity|lra]. }
  rewrite E. apply mapM_bernoulli_run.
Qed.

(** ** Sums over a surveyed selection *)

Lemma sum_cons x xs : np.sum (x :: xs) = x + np.sum xs.
Proof. reflexivity. Qed.

Lemma sumZ_cons d ds : np.sumZ (d :: ds) = (d + np.sumZ ds)%Z.
Proof. reflexivity. Qed.

Lemma sum_nonneg xs : Forall (fun x => 0 <= x) xs -> 0 <= np.sum xs.
Proof.
  induction 1 as [|x xs Hx _ IH]; [unfold np.sum; cbn; lra|].
  rewrite sum_cons. lra.
Qed.

Lemma sum_mul_le xs ds :
  Forall (fun x => 0 <= x) xs -> Forall (fun d => d = 0 \/ d = 1)%Z ds ->
  np.sum (np.mul xs ds) <= np.sum xs.
Proof.
  intros Hxs. revert ds. induction Hxs as [|x xs Hx Hxs IH]; intros ds Hds.
  - cbn [np.mul]. lra.
  - pose proof (sum_nonneg xs Hxs).
    destruct Hds as [|d ds Hd Hds]; cbn [np.mul]; rewrite !sum_cons.
    + change (np.sum []) with 0. lra.
    + specialize (IH ds Hds). destruct Hd as [-> | ->]; lra.
Qed.

Lemma sumZ_bits ds :
  Forall (fun d => d = 0 \/ d = 1)%Z ds ->
  (0 <= np.sumZ ds <= Z.of_nat (length ds))%Z.
Proof.
  induction 1 as [|d ds Hd _ IH].
  - cbn. lia.
  - rewrite sumZ_cons. cbn [length]. lia.
Qed.

Lemma Forall_incl {A} (P : A -> Prop) l l' :
  incl l l' -> Forall P l' -> Forall P l.
Proof.
  intros Hi Hf. rewrite Forall_forall in *. auto.
Qed.

(** ** One survey event of [bridger_survey_realistic.py] *)

Ltac run_with H := unfold bind at 1; rewrite H; cbv beta iota.

Lemma simulate_survey_run df c w k :
  int_float (coverage_product df c) = Ok k ->
  (0 <= k <= Z.of_nat (length df))%Z ->
  exists survey_wells wind ds w',
    Realistic.simulate_survey df c w =
    (Ok (Realistic.mkResults wind
           (map (fun e => Realistic.pod_bridger e wind) survey_wells) ds
           (np.sum survey_wells) (np.sum (np.mul survey_wells ds))
           (length survey_wells) (np.sumZ ds)
           (np.mean (map (fun e => Realistic.pod_bridger e wind) survey_wells))),
     w') /\
    incl survey_wells df /\
    length survey_wells = Z.to_nat k /\
    length ds = length survey_wells /\
    Forall (fun d => d = 0 \/ d = 1)%Z ds /\
    1 <= wind <= 6.
Proof.
  intros Hk Hn. unfold coverage_product in Hk.
  unfold Realistic.simulate_survey. cbv zeta.
  unfold bind at 1, lift. rewrite Hk. cbv beta iota.
  destruct (choice_no_replace_run (seq 0 (length df)) k w)
    as (sel & w1 & Hsel & Hlen & Hincl); [now rewrite length_seq|].
  run_with Hsel.
  destruct (iloc_run df sel w1) as (wells & Hrows & Hlen' & Hincl').
  { intros i Hi. apply Hincl, in_seq in Hi. lia. }
  run_with Hrows.
  run_with (realistic_sample_wind_run Realistic.default_tmy_path w1).
  set (wind := wind_drawn w1 (fs w1 Realistic.default_tmy_path)).
  set (w2 := consume _).
  destruct (binomial1_run (map (fun e => Realistic.pod_bridger e wind) wells) w2)
    as (ds & w3 & Hds & Hlen'' & Hbits).
  { apply Forall_forall. intros p Hp. apply in_map_iff in Hp.
    destruct Hp as (e & <- & _). apply pod_bridger_range. }
  run_with Hds.
  exists wells, wind, ds, w3. unfold ret.
  repeat split; try assumption; try apply wind_drawn_range.
  - lia.
  - rewrite Hlen'', length_map. reflexivity.
Qed.

Lemma simulate_survey_raises df c w k :
  int_float (coverage_product df c) = Ok k ->
  ~ (0 <= k <= Z.of_nat (length df))%Z ->
  exists e, Realistic.simulate_survey df c w = (Raise e, w).
Proof.
  intros Hk Hn. unfold coverage_product in Hk.
  unfold Realistic.simulate_survey. cbv zeta.
  unfold bind at 1, lift. rewrite Hk. cbv beta iota.
  destruct (choice_no_replace_raises (seq 0 (length df)) k w) as (e & He);
    [now rewrite length_seq|].
  exists e. unfold bind at 1. rewrite He. reflexivity.
Qed.

(** A NaN or infinite product stops [simulate_survey] at [int(...)]. *)
Lemma simulate_survey_int_raises df c w e :
  int_float (coverage_product df c) = Raise e ->
  Realistic.simulate_survey df c w = (Raise e, w).
Proof.
  intros Hk. unfold coverage_product in Hk.
  unfold Realistic.simulate_survey. cbv zeta.
  unfold bind at 1, lift. rewrite Hk. reflexivity.
Qed.

(** The truncated products of the examples. *)
Lemma count_full_4 :
  int_float (coverage_product [0.5; 2.0; 0.0; 1.27] full_coverage) = Ok 4%Z.
Proof. unfold coverage_product. cbn [length]. vm_compute. reflexivity. Qed.

Lemma count_full_3 :
  int_float (coverage_product [0.0; -0.2; 0.0] full_coverage) = Ok 3%Z.
Proof. unfold coverage_product. cbn [length]. vm_compute. reflexivity. Qed.



(** ** One survey event of [bridger_spatial_survey.py] *)

Lemma boolean_index_run {A} (df : list A) mask w :
  length mask = length df ->
  pd.boolean_index df mask w = (Ok (map fst (filter snd (combine df mask))), w) /\
  incl (map fst (filter snd (combine df mask))) df.
Proof.
  intros Hlen. unfold pd.boolean_index. rewrite Hlen, Nat.eqb_refl.
  split; [reflexivity|].
  intros x Hx. apply in_map_iff in Hx. destruct Hx as ([y b] & <- & Hy).
  apply filter_In in Hy. destruct Hy as [Hy _].
  eapply in_combine_l; eauto.
Qed.

Lemma boolean_index_raises {A} (df : list A) mask w :
  length mask <> length df ->
  exists e, pd.boolean_index df mask w = (Raise e, w).
Proof.
  intros Hlen. unfold pd.boolean_index.
  destruct (Nat.eqb_spec (length mask) (length df)); [contradiction|].
  eexists; reflexivity.
Qed.

Lemma survey_cluster_run gdf labels wind t cid w :
  length labels = length gdf ->
  exists t' w',
    Spatial.survey_cluster gdf labels wind t cid w = (Ok t', w') /\
    (Forall (fun g => 0 <= Spatial.emission g) gdf -> tally_ok t -> tally_ok t').
Proof.
  intros Hlen. unfold Spatial.survey_cluster. cbv zeta.
  destruct (boolean_index_run gdf (map (fun l => Z.eqb l cid) labels) w)
    as [Hrun Hincl]; [now rewrite length_map|].
  run_with Hrun.
  set (wells := map fst (filter snd (combine gdf _))) in *.
  destruct (binomial1_run
              (map (fun g => Spatial.pod_bridger (Spatial.emission g) wind) wells) w)
    as (ds & w' & Hds & Hlen' & Hbits).
  { apply Forall_forall. intros p Hp. apply in_map_iff in Hp.
    destruct Hp as (g & <- & _). rewrite pod_bridger_same. apply pod_bridger_range. }
  run_with Hds.
  eexists _, w'. split; [reflexivity|]. intros Hpos [He Hw].
  assert (Hnn : Forall (fun x => 0 <= x) (map Spatial.emission wells)).
  { apply Forall_forall. intros x Hx. apply in_map_iff in Hx.
    destruct Hx as (g & <- & Hg). apply Hincl in Hg.
    rewrite Forall_forall in Hpos. now apply Hpos. }
  pose proof (sum_mul_le _ ds Hnn Hbits).
  pose proof (sumZ_bits ds Hbits).
  rewrite length_map in Hlen'.
  unfold tally_ok. cbn [Spatial.detected_emissions Spatial.total_emissions_sampled
                         Spatial.detected_wells Spatial.total_wells].
  split; [lra|lia].
Qed.

Lemma survey_cluster_raises gdf labels wind t cid w :
  length labels <> length gdf ->
  exists e, Spatial.survey_cluster gdf labels wind t cid w = (Raise e, w).
Proof.
  intros Hlen. unfold Spatial.survey_cluster. cbv zeta.
  destruct (boolean_index_raises gdf (map (fun l => Z.eqb l cid) labels) w)
    as (e & He); [now rewrite length_map|].
  exists e. unfold bind at 1. rewrite He. reflexivity.
Qed.

Lemma for_each_survey_run gdf labels wind ids t w :
  length labels = length gdf ->
  exists t' w',
    for_each ids (Spatial.survey_cluster gdf labels wind) t w = (Ok t', w') /\
    (Forall (fun g => 0 <= Spatial.emission g) gdf -> tally_ok t -> tally_ok t').
Proof.
  intros Hlen. revert t w. induction ids as [|cid ids IH]; intros t w.
  - exists t, w. split; [reflexivity | auto].
  - destruct (survey_cluster_run gdf labels wind t cid w Hlen)
      as (t1 & w1 & Hrun & Ht1).
    destruct (IH t1 w1) as (t' & w' & Hrun' & Ht').
    exists t', w'. split; [|auto].
    cbn [for_each]. run_with Hrun. exact Hrun'.
Qed.

Lemma for_each_survey_raises gdf labels wind cid ids t w :
  length labels <> length gdf ->
  exists e,
    for_each (cid :: ids) (Spatial.survey_cluster gdf labels wind) t w = (Raise e, w).
Proof.
  intros Hlen.
  destruct (survey_cluster_raises gdf labels wind t cid w Hlen) as (e & He).
  exists e. cbn [for_each]. unfold bind at 1. rewrite He. reflexivity.
Qed.

Lemma tally_ok_zero :
  tally_ok (Spatial.mkTally 0 0.0 0 0.0 []).
Proof. unfold tally_ok. cbn. split; [lra|lia]. Qed.

(** A quarterly survey over an empty list of clusters. *)
Lemma simulate_quarterly_survey_nil gdf labels w :
  Spatial.simulate_quarterly_survey gdf labels [] w =
  (Ok (Spatial.mkResult 0 0 0.0 (wind_drawn w (fs w Spatial.default_tmy_path))
         (np.Finite 0.0) 0 0.0),
   consume w).
Proof.
  unfold Spatial.simulate_quarterly_survey. cbv zeta.
  run_with (spatial_sample_wind_run Spatial.default_tmy_path w).
  reflexivity.
Qed.

Lemma simulate_quarterly_survey_run gdf labels ids w :
  length labels = length gdf ->
  exists r w',
    Spatial.simulate_quarterly_survey gdf labels ids w = (Ok r, w') /\
    Spatial.clusters_surveyed r = length ids /\
    1 <= Spatial.wind_speed_ms r <= 6 /\
    (Forall (fun g => 0 <= Spatial.emission g) gdf ->
     Spatial.emissions_detected_kgph r <= Spatial.emissions_surveyed_kgph r /\
     (0 <= Spatial.wells_detected r <= Z.of_nat (Spatial.wells_surveyed r))%Z).
Proof.
  intros Hlen. unfold Spatial.simulate_quarterly_survey. cbv zeta.
  run_with (spatial_sample_wind_run Spatial.default_tmy_path w).
  set (wind := wind_drawn w _).
  destruct (for_each_survey_run gdf labels wind ids
              (Spatial.mkTally 0 0.0 0 0.0 []) (consume w) Hlen)
    as (t & w' & Hrun & Hinv).
  run_with Hrun.
  eexists _, w'. split; [reflexivity|]. cbn.
  split; [reflexivity|]. split; [apply wind_drawn_range|].
  intros Hpos. destruct (Hinv Hpos tally_ok_zero) as [He Hw]. split; [exact He|lia].
Qed.

(** ** Truncation of the surveyed count *)

Lemma int_nonneg x : 0 <= x -> int x = Zfloor x.
Proof. intros Hx. unfold int. destruct (Rle_dec 0 x); [reflexivity|lra]. Qed.


Lemma Zfloor_fifth n : Zfloor (INR n * 0.20) = Z.of_nat (n / 5).
Proof.
  apply Zfloor_eq. rewrite <- INR_IZR_INZ.
  pose proof (Nat.div_mod_eq n 5) as E.
  pose proof (Nat.mod_upper_bound n 5 ltac:(lia)) as Hr.
  apply (f_equal INR) in E. rewrite plus_INR, mult_INR in E.
  apply lt_INR in Hr. pose proof (pos_INR (n mod 5)).
  change (INR 5) with (1 + 1 + 1 + 1 + 1) in *.
  lra.
Qed.


(** ** Survey events: detected against sampled *)

(** C9. In every result of a survey event over sites whose emission rates are
    all non-negative, the detected emissions do not exceed the sampled
    emissions and the detected wells do not exceed the sampled wells; this
    holds for [simulate_survey] and for [simulate_quarterly_survey]. *)
Theorem detected_within_sampled
  (emissions_df : list R) (coverage_pct : float)
  (gdf : list Spatial.well) (cluster_labels cluster_id_list : list Z)
  (w : world) :
  Forall (fun e => 0 <= e) emissions_df ->
  Forall (fun g => 0 <= Spatial.emission g) gdf ->
  (forall r w',
     Realistic.simulate_survey emissions_df coverage_pct w = (Ok r, w') ->
     Realistic.emissions_detected r <= Realistic.emissions_sampled r /\
     (Realistic.wells_detected r <= Z.of_nat (Realistic.wells_sampled r))%Z) /\
  (forall r w',
     Spatial.simulate_quarterly_survey gdf cluster_labels cluster_id_list w
     = (Ok r, w') ->
     Spatial.emissions_detected_kgph r <= Spatial.emissions_surveyed_kgph r /\
     (Spatial.wells_detected r <= Z.of_nat (Spatial.wells_surveyed r))%Z).
Proof.
  intros Hdf Hgdf. split.
  - intros r w' Hrun.
    destruct (int_float (coverage_product emissions_df coverage_pct))
      as [n|e0] eqn:Hk;
      [|rewrite (simulate_survey_int_raises _ _ _ _ Hk) in Hrun; discriminate].
    destruct (Z_le_dec 0 n) as [H0|H0];
      [destruct (Z_le_dec n (Z.of_nat (length emissions_df))) as [H1|H1]|].
    + destruct (simulate_survey_run emissions_df coverage_pct w n Hk (conj H0 H1))
        as (wells & wind & ds & w1 & Hrun' & Hincl & _ & Hlen & Hbits & _).
      rewrite Hrun' in Hrun. injection Hrun as <- _.
      cbn [Realistic.emissions_detected Realistic.emissions_sampled
           Realistic.wells_detected Realistic.wells_sampled].
      split.
      * apply sum_mul_le; [|exact Hbits]. eapply Forall_incl; eauto.
      * pose proof (sumZ_bits ds Hbits). lia.
    + destruct (simulate_survey_raises emissions_df coverage_pct w n Hk) as (e & He);
        [lia|]. rewrite He in Hrun. discriminate.
    + destruct (simulate_survey_raises emissions_df coverage_pct w n Hk) as (e & He);
        [lia|]. rewrite He in Hrun. discriminate.
  - intros r w' Hrun.
    destruct (Nat.eq_dec (length cluster_labels) (length gdf)) as [Hlen|Hlen].
    + destruct (simulate_quarterly_survey_run gdf cluster_labels cluster_id_list w Hlen)
        as (r1 & w1 & Hrun' & _ & _ & Hinv).
      rewrite Hrun' in Hrun. injection Hrun as <- _.
      destruct (Hinv Hgdf) as [He Hw]. split; [exact He|lia].
    + destruct cluster_id_list as [|cid ids].
      * rewrite simulate_quarterly_survey_nil in Hrun. injection Hrun as <- _.
        cbn. split; [lra|lia].
      * unfold Spatial.simulate_quarterly_survey in Hrun. cbv zeta in Hrun.
        revert Hrun.
        run_with (spatial_sample_wind_run Spatial.default_tmy_path w).
        destruct (for_each_survey_raises gdf cluster_labels
                    (wind_drawn w (fs w Spatial.default_tmy_path)) cid ids
                    (Spatial.mkTally 0 0.0 0 0.0 []) (consume w) Hlen) as (e & He).
        unfold bind at 1. rewrite He. discriminate.
Qed.

Lemma detected_within_sampled_witness :
  (exists r w',
     Realistic.simulate_survey [0.5; 2.0; 0.0; 1.27] full_coverage world_missing
     = (Ok r, w') /\
     Realistic.emissions_detected r <= Realistic.emissions_sampled r /\
     (Realistic.wells_detected r <= Z.of_nat (Realistic.wells_sampled r))%Z) /\
  (exists r w',
     Spatial.simulate_quarterly_survey
       [Spatial.mkWell 40.1 (-79.9) 0.5; Spatial.mkWell 40.1 (-79.8) 2.0]
       [0; 0]%Z [0]%Z world_missing = (Ok r, w') /\
     Spatial.emissions_detected_kgph r <= Spatial.emissions_surveyed_kgph r /\
     (Spatial.wells_detected r <= Z.of_nat (Spatial.wells_surveyed r))%Z).
Proof.
  assert (Hdf : Forall (fun e => 0 <= e) [0.5; 2.0; 0.0; 1.27])
    by (repeat constructor; lra).
  assert (Hgdf : Forall (fun g => 0 <= Spatial.emission g)
                   [Spatial.mkWell 40.1 (-79.9) 0.5; Spatial.mkWell 40.1 (-79.8) 2.0])
    by (repeat constructor; cbn; lra).
  destruct (detected_within_sampled [0.5; 2.0; 0.0; 1.27] full_coverage
              [Spatial.mkWell 40.1 (-79.9) 0.5; Spatial.mkWell 40.1 (-79.8) 2.0]
              [0; 0]%Z [0]%Z world_missing Hdf Hgdf) as [Ha Hb].
  split.
  - destruct (simulate_survey_run [0.5; 2.0; 0.0; 1.27] full_coverage world_missing
                4 count_full_4)
      as (wells & wind & ds & w1 & Hrun & _).
    { cbn [length]. lia. }
    eexists _, w1. split; [exact Hrun | exact (Ha _ _ Hrun)].
  - destruct (simulate_quarterly_survey_run
                [Spatial.mkWell 40.1 (-79.9) 0.5; Spatial.mkWell 40.1 (-79.8) 2.0]
                [0; 0]%Z [0]%Z world_missing eq_refl)
      as (r & w1 & Hrun & _).
    exists r, w1. split; [exact Hrun | exact (Hb _ _ Hrun)].
Defined.

(** ** Survey events: how many units are surveyed *)



Lemma float_value_product_7 :
  float_value (coverage_product [0.5; 2.0; 0.0; 1.27; 3.0; 0.2; 0.9] three_sevenths)
  = 3.
Proof.
  unfold float_value.
  replace (Prim2SF (coverage_product [0.5; 2.0; 0.0; 1.27; 3.0; 0.2; 0.9]
                      three_sevenths))
    with (S754_finite false 6755399441055744 (-51))
    by (unfold coverage_product; cbn [length]; vm_compute; reflexivity).
  cbv iota. change (0 <=? -51)%Z with false. cbv iota.
  change (2 ^ (- (-51)))%Z with 2251799813685248%Z. lra.
Qed.





(** ** Survey events over an empty selection *)

(** C5 (what the code does). When the coverage selects no well
    ([int(n * c) = 0]), [simulate_survey] does return a result with zero
    counts and zero sums, but its [avg_pod] is NaN, the mean of an empty
    column; [simulate_quarterly_survey] over an empty cluster list returns
    zeros throughout, [avg_pod] included. *)
Theorem empty_selection_results
  (emissions_df : list R) (coverage_pct : float)
  (gdf : list Spatial.well) (cluster_labels : list Z) (w : world) :
  int_float (coverage_product emissions_df coverage_pct) = Ok 0%Z ->
  (exists wind w',
     Realistic.simulate_survey emissions_df coverage_pct w
     = (Ok (Realistic.mkResults wind [] [] 0 0 0 0 np.NaN), w') /\
     1 <= wind <= 6) /\
  (exists wind w',
     Spatial.simulate_quarterly_survey gdf cluster_labels [] w
     = (Ok (Spatial.mkResult 0 0 0 wind (np.Finite 0) 0 0), w') /\
     1 <= wind <= 6).
Proof.
  intros Hn. split.
  - destruct (simulate_survey_run emissions_df coverage_pct w 0 Hn)
      as (wells & wind & ds & w' & Hrun & _ & Hlw & Hld & _ & Hwind).
    { lia. }
    cbn in Hlw.
    destruct wells; [|discriminate]. destruct ds; [|discriminate].
    exists wind, w'. split; [exact Hrun | exact Hwind].
  - exists (wind_drawn w (fs w Spatial.default_tmy_path)), (consume w).
    split; [|apply wind_drawn_range].
    rewrite simulate_quarterly_survey_nil.
    do 2 f_equal. f_equal; try lra. f_equal. lra.
Qed.

Lemma empty_selection_results_witness :
  (exists wind w',
     Realistic.simulate_survey [0.5; 1.2; 3.0; 0.1] Realistic.SURVEY_COVERAGE_PCT
       world_missing
     = (Ok (Realistic.mkResults wind [] [] 0 0 0 0 np.NaN), w') /\
     1 <= wind <= 6) /\
  (exists wind w',
     Spatial.simulate_quarterly_survey [] [] [] world_missing
     = (Ok (Spatial.mkResult 0 0 0 wind (np.Finite 0) 0 0), w') /\
     1 <= wind <= 6).
Proof.
  apply (empty_selection_results [0.5; 1.2; 3.0; 0.1]
           Realistic.SURVEY_COVERAGE_PCT [] [] world_missing).
  unfold coverage_product. cbn [length]. vm_compute. reflexivity.
Defined.

(** ** The wind sampler: fallback and what the caller sees *)

(** The four unusable states of the wind source are all [degraded]. *)
Lemma degraded_states :
  degraded Missing = true /\
  (forall err, degraded (Unreadable err) = true) /\
  (forall df, pd.has_column "WindSpeed" df = false ->
              pd.has_column "wind_speed" df = false ->
              degraded (Csv df) = true) /\
  (forall src, flyable_values src = [] -> degraded src = true).
Proof.
  repeat split; try reflexivity.
  - intros df H1 H2. unfold degraded, flyable_values. now rewrite H1, H2.
  - intros src H. unfold degraded. now rewrite H.
Qed.





(** ** The clustering front end *)

(** A positive radius and a minimum sample count of at least 1 pass the
    check, and the labels are those of the clustering routine. *)
Lemma cluster_wells_dbscan_accepts dbscan_labels gdf eps_km min_samples :
  0 < eps_km -> (1 <= min_samples)%Z ->
  exists centroids,
    Spatial.cluster_wells_dbscan dbscan_labels gdf eps_km min_samples
    = Ok (dbscan_labels (Spatial.eps_degrees eps_km) min_samples
            (map (fun g => (Spatial.Latitude g, Spatial.Longitude g)) gdf),
          centroids).
Proof.
  intros He Hm.
  unfold Spatial.cluster_wells_dbscan, sklearn.DBSCAN_fit, sklearn.validate_params.
  cbv zeta.
  destruct (Rle_dec (Spatial.eps_degrees eps_km) 0) as [H|_];
    [unfold Spatial.eps_degrees in H; lra|].
  destruct (Z.ltb_spec min_samples 1); [lia|].
  eexists; reflexivity.
Qed.

(** C6. For a radius [eps_km <= 0] or a minimum sample count
    [min_samples <= 0], [cluster_wells_dbscan] returns no labels: the call
    ends in the estimator's [InvalidParameterError], raised by the parameter
    check that precedes the clustering, whatever the wells and whatever the
    clustering routine would compute; and the conversion of the radius to
    degrees is the plain quotient by 111, so a non-positive radius reaches
    the check non-positive. *)
Theorem cluster_wells_dbscan_rejects
  (dbscan_labels : R -> Z -> list (R * R) -> list Z)
  (gdf : list Spatial.well) (eps_km : R) (min_samples : Z) :
  eps_km <= 0 \/ (min_samples <= 0)%Z ->
  (exists msg,
     Spatial.cluster_wells_dbscan dbscan_labels gdf eps_km min_samples
     = Raise (InvalidParameterError msg)) /\
  Spatial.eps_degrees eps_km * 111 = eps_km /\
  (eps_km <= 0 -> Spatial.eps_degrees eps_km <= 0).
Proof.
  intros Hbad.
  assert (Hconv : Spatial.eps_degrees eps_km * 111 = eps_km)
    by (unfold Spatial.eps_degrees; lra).
  assert (Hsign : eps_km <= 0 -> Spatial.eps_degrees eps_km <= 0)
    by (unfold Spatial.eps_degrees; lra).
  split; [|split; assumption].
  unfold Spatial.cluster_wells_dbscan, sklearn.DBSCAN_fit, sklearn.validate_params.
  cbv zeta.
  destruct (Rle_dec (Spatial.eps_degrees eps_km) 0) as [He|He].
  - eexists; reflexivity.
  - destruct Hbad as [Hb|Hb]; [specialize (Hsign Hb); lra|].
    destruct (Z.ltb_spec min_samples 1); [eexists; reflexivity | lia].
Qed.

Lemma cluster_wells_dbscan_rejects_witness :
  (exists msg,
     Spatial.cluster_wells_dbscan (fun _ _ X => map (fun _ => (-1)%Z) X)
       [Spatial.mkWell 40.1 (-79.9) 0.5; Spatial.mkWell 40.1 (-79.8) 2.0] 0.8 0
     = Raise (InvalidParameterError msg)) /\
  Spatial.eps_degrees 0.8 * 111 = 0.8 /\
  (0.8 <= 0 -> Spatial.eps_degrees 0.8 <= 0).
Proof.
  apply (cluster_wells_dbscan_rejects (fun _ _ X => map (fun _ => (-1)%Z) X)
           [Spatial.mkWell 40.1 (-79.9) 0.5; Spatial.mkWell 40.1 (-79.8) 2.0] 0.8 0).
  right. lia.
Defined.

(** ** Geodesy *)

Lemma sin_half_sq x : sin (x / 2) ^ 2 = (1 - cos x) / 2.
Proof.
  replace x with (2 * (x / 2)) at 2 by lra.
  rewrite cos_2a_sin. simpl. lra.
Qed.

(** The haversine argument is half of one minus a cosine of the central
    angle, and so lies in [0, 1]. *)
Lemma haversine_arg_range phi1 phi2 dl :
  0 <= sin ((phi2 - phi1) / 2) ^ 2 + cos phi1 * cos phi2 * sin (dl / 2) ^ 2 <= 1.
Proof.
  rewrite !sin_half_sq, cos_minus.
  pose proof (sin2_cos2 phi1) as H1. pose proof (sin2_cos2 phi2) as H2.
  pose proof (COS_bound dl) as [Hk1 Hk2].
  rewrite !Rsqr_pow2 in H1, H2.
  set (s1 := sin phi1) in *. set (c1 := cos phi1) in *.
  set (s2 := sin phi2) in *. set (c2 := cos phi2) in *.
  set (k := cos dl) in *.
  assert (Hk : 0 <= 1 - k * k) by nra.
  assert (Ha : 0 <= (s1 - s2) ^ 2 + (c1 - c2 * k) ^ 2 + c2 ^ 2 * (1 - k * k)).
  { apply Rplus_le_le_0_compat; [apply Rplus_le_le_0_compat|];
      try apply pow2_ge_0. apply Rmult_le_pos; [apply pow2_ge_0 | exact Hk]. }
  assert (Hb : 0 <= (s1 + s2) ^ 2 + (c1 + c2 * k) ^ 2 + c2 ^ 2 * (1 - k * k)).
  { apply Rplus_le_le_0_compat; [apply Rplus_le_le_0_compat|];
      try apply pow2_ge_0. apply Rmult_le_pos; [apply pow2_ge_0 | exact Hk]. }
  split; nra.
Qed.


Lemma radians_minus x y : np.radians (x - y) = np.radians x - np.radians y.
Proof. unfold np.radians. lra. Qed.

(** The value of [haversine_distance], with [np.sqrt] and [np.arcsin] inside
    their domains. *)
Lemma haversine_distance_value lat1 lon1 lat2 lon2 :
  Spatial.haversine_distance lat1 lon1 lat2 lon2 =
  np.Finite
    (6371 * (2 * asin (sqrt
       (sin (np.radians (lat2 - lat1) / 2) ^ 2
        + cos (np.radians lat1) * cos (np.radians lat2)
          * sin (np.radians (lon2 - lon1) / 2) ^ 2)))).
Proof.
  unfold Spatial.haversine_distance. cbv zeta.
  set (a := sin _ ^ 2 + _).
  assert (Ha : 0 <= a <= 1).
  { subst a. rewrite radians_minus. apply haversine_arg_range. }
  unfold np.sqrt. destruct (Rlt_dec a 0) as [H|_]; [lra|].
  assert (Hs : 0 <= sqrt a <= 1).
  { split; [apply sqrt_pos|]. rewrite <- sqrt_1. apply sqrt_le_1_alt. lra. }
  unfold np.arcsin. destruct (Rle_dec (-1) (sqrt a)) as [_|H]; [|lra].
  destruct (Rle_dec (sqrt a) 1) as [_|H]; [|lra]. reflexivity.
Qed.




(** X2. [haversine_distance] is symmetric in its two points. *)
Theorem haversine_distance_symmetric (lat1 lon1 lat2 lon2 : R) :
  Spatial.haversine_distance lat1 lon1 lat2 lon2
  = Spatial.haversine_distance lat2 lon2 lat1 lon1.
Proof.
  rewrite !haversine_distance_value. do 5 f_equal.
  replace (np.radians (lat1 - lat2) / 2) with (- (np.radians (lat2 - lat1) / 2))
    by (unfold np.radians; lra).
  replace (np.radians (lon1 - lon2) / 2) with (- (np.radians (lon2 - lon1) / 2))
    by (unfold np.radians; lra).
  rewrite !sin_neg. ring.
Qed.

(** X3. Along a meridian, for latitudes at most 180 degrees apart,
    [haversine_distance] is the arc length [6371 * |lat2 - lat1| * PI / 180];
    in particular it is 0 between a point and itself. *)
Theorem haversine_distance_meridian (lat1 lat2 lon : R) :
  Rabs (lat2 - lat1) <= 180 ->
  Spatial.haversine_distance lat1 lon lat2 lon
  = np.Finite (6371 * (Rabs (lat2 - lat1) * PI / 180)) /\
  Spatial.haversine_distance lat1 lon lat1 lon = np.Finite 0.
Proof.
  assert (Hline : forall l1 l2, Rabs (l2 - l1) <= 180 ->
            Spatial.haversine_distance l1 lon l2 lon
            = np.Finite (6371 * (Rabs (l2 - l1) * PI / 180))).
  { intros l1 l2 Hd. rewrite haversine_distance_value. f_equal. f_equal.
    replace (np.radians (lon - lon) / 2) with 0 by (unfold np.radians; lra).
    rewrite sin_0.
    replace (sin (np.radians (l2 - l1) / 2) ^ 2 +
             cos (np.radians l1) * cos (np.radians l2) * 0 ^ 2)
      with (Rsqr (sin (np.radians (l2 - l1) / 2))) by (unfold Rsqr; simpl; lra).
    rewrite sqrt_Rsqr_abs.
    set (x := np.radians (l2 - l1) / 2).
    assert (Hx : Rabs x = Rabs (l2 - l1) * PI / 360).
    { unfold x, np.radians.
      replace ((l2 - l1) * PI / 180 / 2) with ((l2 - l1) * (PI / 360)) by lra.
      rewrite Rabs_mult, (Rabs_right (PI / 360)); [lra|].
      pose proof PI_RGT_0. lra. }
    assert (Hb : 0 <= Rabs x <= PI / 2).
    { rewrite Hx. pose proof PI_RGT_0. pose proof (Rabs_pos (l2 - l1)).
      split; [|nra]. apply Rmult_le_pos; [|lra]. apply Rmult_le_pos; lra. }
    assert (Hsin : Rabs (sin x) = sin (Rabs x)).
    { unfold Rabs at 2. destruct (Rcase_abs x) as [Hn|Hp].
      - rewrite sin_neg. apply Rabs_left1.
        rewrite Rabs_left in Hb by exact Hn. pose proof PI_RGT_0.
        destruct (Req_dec x 0) as [->|]; [rewrite sin_0; lra|].
        left. apply sin_lt_0_var; lra.
      - apply Rabs_right. rewrite Rabs_right in Hb by exact Hp.
        apply Rle_ge, sin_ge_0; pose proof PI_RGT_0; lra. }
    rewrite Hsin, asin_sin by (pose proof PI_RGT_0; lra).
    rewrite Hx. lra. }
  intros Hd. split; [now apply Hline|].
  rewrite Hline by (replace (lat1 - lat1) with 0 by lra; rewrite Rabs_R0; lra).
  f_equal. replace (lat1 - lat1) with 0 by lra. rewrite Rabs_R0. lra.
Qed.

Lemma haversine_distance_meridian_witness :
  Spatial.haversine_distance 40 (-79.5) 41 (-79.5)
  = np.Finite (6371 * (Rabs (41 - 40) * PI / 180)) /\
  Spatial.haversine_distance 40 (-79.5) 40 (-79.5) = np.Finite 0.
Proof.
  apply (haversine_distance_meridian 40 41 (-79.5)).
  replace (41 - 40) with 1 by lra. rewrite Rabs_R1. lra.
Defined.


(** ** The detection curve without logarithms *)

Lemma pod_bridger_quotient e w :
  0 < e ->
  Realistic.pod_bridger e w
  = e ^ 2 / (e ^ 2 + (1.27 * exp (-0.3 * (w - 3.5))) ^ 2).
Proof.
  intros He. rewrite pod_bridger_pos by exact He. unfold logistic.
  set (T := 1.27 * exp (-0.3 * (w - 3.5))).
  assert (HT : 0 < T) by (unfold T; pose proof (exp_pos (-0.3 * (w - 3.5))); lra).
  assert (HlnT : ln T = ln 1.27 + -0.3 * (w - 3.5)).
  { unfold T. rewrite ln_mult by (try apply exp_pos; lra). now rewrite ln_exp. }
  replace (- (2 * (ln e - ln 1.27) + 0.6 * (w - 3.5)))
    with ((ln T + ln T) + - (ln e + ln e)) by lra.
  rewrite exp_plus, exp_Ropp, !exp_plus, !exp_ln by assumption.
  field. split; [nra | lra].
Qed.

(** X5. For a positive emission rate, [pod_bridger] is the quotient
    [e^2 / (e^2 + T^2)] with the wind-adjusted threshold
    [T = 1.27 * exp (-0.3 * (w - 3.5))], in both scripts. *)
Theorem pod_bridger_closed_form (e w : R) :
  0 < e ->
  Realistic.pod_bridger e w
  = e ^ 2 / (e ^ 2 + (1.27 * exp (-0.3 * (w - 3.5))) ^ 2) /\
  Spatial.pod_bridger e w
  = e ^ 2 / (e ^ 2 + (1.27 * exp (-0.3 * (w - 3.5))) ^ 2).
Proof.
  intros He. rewrite pod_bridger_same. split; now apply pod_bridger_quotient.
Qed.

Lemma pod_bridger_closed_form_witness :
  Realistic.pod_bridger 2 3.5
  = 2 ^ 2 / (2 ^ 2 + (1.27 * exp (-0.3 * (3.5 - 3.5))) ^ 2) /\
  Spatial.pod_bridger 2 3.5
  = 2 ^ 2 / (2 ^ 2 + (1.27 * exp (-0.3 * (3.5 - 3.5))) ^ 2).
Proof. apply (pod_bridger_closed_form 2 3.5). lra. Defined.

(** X6. [pod_bridger] returns 0.9 exactly at three times the wind-adjusted
    threshold: at the baseline wind of 3.5 m/s that is 3.81 kg/h, not
    1.27 kg/h. *)
Theorem pod_bridger_ninety_percent (e w : R) :
  0 < e ->
  (Realistic.pod_bridger e w = 0.9 <-> e = 3 * (1.27 * exp (-0.3 * (w - 3.5)))) /\
  Realistic.pod_bridger 3.81 3.5 = 0.9.
Proof.
  intros He.
  assert (Hiff : forall e' w', 0 < e' ->
            (Realistic.pod_bridger e' w' = 0.9
             <-> e' = 3 * (1.27 * exp (-0.3 * (w' - 3.5))))).
  { intros e' w' He'. rewrite pod_bridger_quotient by exact He'.
    set (T := 1.27 * exp (-0.3 * (w' - 3.5))).
    assert (HT : 0 < T)
      by (unfold T; pose proof (exp_pos (-0.3 * (w' - 3.5))); lra).
    assert (Hden : 0 < e' ^ 2 + T ^ 2) by nra.
    split.
    - intros H. apply (f_equal (fun x => x * (e' ^ 2 + T ^ 2))) in H.
      unfold Rdiv in H. rewrite Rmult_assoc, Rinv_l, Rmult_1_r in H by lra.
      assert (Hsq : (e' - 3 * T) * (e' + 3 * T) = 0) by nra.
      apply Rmult_integral in Hsq. destruct Hsq; lra.
    - intros ->. replace 0.9 with (9 / 10) by lra. field. nra. }
  split; [now apply Hiff|].
  apply Hiff; [lra|].
  replace (-0.3 * (3.5 - 3.5)) with 0 by lra. rewrite exp_0. lra.
Qed.

Lemma pod_bridger_ninety_percent_witness :
  (Realistic.pod_bridger 3.81 3.5 = 0.9
   <-> 3.81 = 3 * (1.27 * exp (-0.3 * (3.5 - 3.5)))) /\
  Realistic.pod_bridger 3.81 3.5 = 0.9.
Proof. apply (pod_bridger_ninety_percent 3.81 3.5). lra. Defined.

(** ** Clusters and their centroids *)

Lemma cluster_wells_dbscan_ok dbscan_labels gdf eps_km min_samples labels centroids :
  Spatial.cluster_wells_dbscan dbscan_labels gdf eps_km min_samples
  = Ok (labels, centroids) ->
  let coords := map (fun g => (Spatial.Latitude g, Spatial.Longitude g)) gdf in
  labels = dbscan_labels (Spatial.eps_degrees eps_km) min_samples coords /\
  centroids =
  map (fun cluster_id =>
         let m := Spatial.members coords labels cluster_id in
         (cluster_id, (np.mean (map fst m), np.mean (map snd m))))
      (filter (fun cluster_id => negb (Z.eqb cluster_id (-1)))
              (nodup Z.eq_dec labels)).
Proof.
  unfold Spatial.cluster_wells_dbscan, sklearn.DBSCAN_fit. cbv zeta.
  destruct (sklearn.validate_params _ _); [|discriminate].
  intros H. injection H as <- <-. split; reflexivity.
Qed.

Lemma centroid_ids dbscan_labels gdf eps_km min_samples labels centroids :
  Spatial.cluster_wells_dbscan dbscan_labels gdf eps_km min_samples
  = Ok (labels, centroids) ->
  map fst centroids
  = filter (fun cluster_id => negb (Z.eqb cluster_id (-1))) (nodup Z.eq_dec labels).
Proof.
  intros H. apply cluster_wells_dbscan_ok in H. cbv zeta in H.
  destruct H as [_ ->]. rewrite map_map. cbn [fst]. apply map_id.
Qed.

(** X7. The centroid dict of [cluster_wells_dbscan] has one entry per
    distinct cluster label: its keys do not repeat, the noise label -1 is
    never a key, and every other label that occurs is a key. *)
Theorem centroid_keys
  (dbscan_labels : R -> Z -> list (R * R) -> list Z)
  (gdf : list Spatial.well) (eps_km : R) (min_samples : Z)
  (labels : list Z) (centroids : list (Z * (np.npfloat * np.npfloat))) :
  Spatial.cluster_wells_dbscan dbscan_labels gdf eps_km min_samples
  = Ok (labels, centroids) ->
  NoDup (map fst centroids) /\
  ~ In (-1)%Z (map fst centroids) /\
  (forall k, In k (map fst centroids) <-> In k labels /\ k <> (-1)%Z).
Proof.
  intros H. rewrite (centroid_ids _ _ _ _ _ _ H).
  assert (Hin : forall k,
            In k (filter (fun c => negb (Z.eqb c (-1))) (nodup Z.eq_dec labels))
            <-> In k labels /\ k <> (-1)%Z).
  { intros k. rewrite filter_In, nodup_In, negb_true_iff, Z.eqb_neq. tauto. }
  split; [apply NoDup_filter, NoDup_nodup|].
  split; [intros Hk; apply Hin in Hk; lia | exact Hin].
Qed.

Lemma centroid_keys_witness :
  exists labels centroids,
    Spatial.cluster_wells_dbscan (fun _ _ _ => [0; 0; -1]%Z)
      [Spatial.mkWell 40.1 (-79.9) 0.5; Spatial.mkWell 40.1 (-79.8) 2.0;
       Spatial.mkWell 41.5 (-78.0) 0.1] 0.8 2
    = Ok (labels, centroids) /\
    NoDup (map fst centroids) /\
    ~ In (-1)%Z (map fst centroids) /\
    (forall k, In k (map fst centroids) <-> In k labels /\ k <> (-1)%Z).
Proof.
  destruct (cluster_wells_dbscan_accepts (fun _ _ _ => [0; 0; -1]%Z)
              [Spatial.mkWell 40.1 (-79.9) 0.5; Spatial.mkWell 40.1 (-79.8) 2.0;
               Spatial.mkWell 41.5 (-78.0) 0.1] 0.8 2) as (centroids & Hrun);
    [lra | lia |].
  eexists _, centroids. split; [exact Hrun|].
  exact (centroid_keys _ _ _ _ _ _ Hrun).
Defined.

Lemma combine_in_label {A} (xs : list A) (labels : list Z) k :
  length xs = length labels -> In k labels ->
  exists x, In (x, k) (combine xs labels).
Proof.
  revert labels. induction xs as [|x xs IH]; intros [|l labels] Hlen Hk;
    try discriminate; try contradiction.
  cbn in Hlen. destruct Hk as [->|Hk].
  - exists x. now left.
  - destruct (IH labels) as (y & Hy); [lia | exact Hk|]. exists y. now right.
Qed.

Lemma sum_bounds lo hi xs :
  Forall (fun x => lo <= x <= hi) xs ->
  INR (length xs) * lo <= np.sum xs <= INR (length xs) * hi.
Proof.
  induction 1 as [|x xs Hx _ IH].
  - cbn. unfold np.sum. cbn. lra.
  - rewrite sum_cons. cbn [length]. rewrite S_INR. lra.
Qed.

Lemma mean_bounds lo hi xs :
  xs <> [] -> Forall (fun x => lo <= x <= hi) xs ->
  exists m, np.mean xs = np.Finite m /\ lo <= m <= hi.
Proof.
  intros Hne Hxs. destruct xs as [|x xs]; [congruence|].
  eexists. split; [reflexivity|].
  pose proof (sum_bounds lo hi _ Hxs) as [Hl Hh].
  assert (Hn : 0 < INR (length (x :: xs))) by (apply lt_0_INR; cbn; lia).
  split.
  - apply Rmult_le_reg_r with (INR (length (x :: xs))); [exact Hn|].
    unfold Rdiv. rewrite Rmult_assoc, Rinv_l by lra. lra.
  - apply Rmult_le_reg_r with (INR (length (x :: xs))); [exact Hn|].
    unfold Rdiv. rewrite Rmult_assoc, Rinv_l by lra. lra.
Qed.

(** X8. When the estimator returns one label per well, every centroid of
    [cluster_wells_dbscan] is a finite pair (its cluster has a member), and
    each coordinate lies within any bounds that hold for all wells. *)
Theorem centroids_finite_within_bounds
  (dbscan_labels : R -> Z -> list (R * R) -> list Z)
  (gdf : list Spatial.well) (eps_km : R) (min_samples : Z)
  (labels : list Z) (centroids : list (Z * (np.npfloat * np.npfloat)))
  (lat_lo lat_hi lon_lo lon_hi : R) :
  Spatial.cluster_wells_dbscan dbscan_labels gdf eps_km min_samples
  = Ok (labels, centroids) ->
  length labels = length gdf ->
  Forall (fun g => lat_lo <= Spatial.Latitude g <= lat_hi /\
                   lon_lo <= Spatial.Longitude g <= lon_hi) gdf ->
  Forall (fun c => exists lat lon,
            snd c = (np.Finite lat, np.Finite lon) /\
            lat_lo <= lat <= lat_hi /\ lon_lo <= lon <= lon_hi) centroids.
Proof.
  intros Hrun Hlen Hbox.
  pose proof (cluster_wells_dbscan_ok _ _ _ _ _ _ Hrun) as [_ Hc]. cbv zeta in Hc.
  set (coords := map (fun g => (Spatial.Latitude g, Spatial.Longitude g)) gdf) in *.
  rewrite Hc. apply Forall_forall. intros c Hin.
  apply in_map_iff in Hin. destruct Hin as (k & <- & Hk).
  apply filter_In in Hk. destruct Hk as [Hk _]. apply nodup_In in Hk.
  cbn [snd].
  set (m := Spatial.members coords labels k).
  assert (Hne : m <> []).
  { destruct (combine_in_label coords labels k) as (x & Hx);
      [unfold coords; rewrite length_map; lia | exact Hk|].
    intros E. assert (Hm : In x m).
    { unfold m, Spatial.members. apply in_map_iff. exists (x, k). split; [reflexivity|].
      apply filter_In. split; [exact Hx|]. cbn. apply Z.eqb_refl. }
    rewrite E in Hm. contradiction. }
  assert (Hmem : forall p, In p m ->
            lat_lo <= fst p <= lat_hi /\ lon_lo <= snd p <= lon_hi).
  { intros p Hp. unfold m, Spatial.members in Hp.
    apply in_map_iff in Hp. destruct Hp as ([q l] & <- & Hq).
    apply filter_In in Hq. destruct Hq as [Hq _]. apply in_combine_l in Hq.
    unfold coords in Hq. apply in_map_iff in Hq. destruct Hq as (g & <- & Hg).
    rewrite Forall_forall in Hbox. now apply Hbox. }
  destruct (mean_bounds lat_lo lat_hi (map fst m)) as (lat & Elat & Hlat).
  { destruct m; [congruence | discriminate]. }
  { apply Forall_forall. intros x Hx. apply in_map_iff in Hx.
    destruct Hx as (p & <- & Hp). now apply Hmem. }
  destruct (mean_bounds lon_lo lon_hi (map snd m)) as (lon & Elon & Hlon).
  { destruct m; [congruence | discriminate]. }
  { apply Forall_forall. intros x Hx. apply in_map_iff in Hx.
    destruct Hx as (p & <- & Hp). now apply Hmem. }
  exists lat, lon. rewrite Elat, Elon. auto.
Qed.

Lemma centroids_finite_within_bounds_witness :
  exists labels centroids,
    Spatial.cluster_wells_dbscan (fun _ _ _ => [0; 0; -1]%Z)
      [Spatial.mkWell 40.1 (-79.9) 0.5; Spatial.mkWell 40.1 (-79.8) 2.0;
       Spatial.mkWell 41.5 (-78.0) 0.1] 0.8 2
    = Ok (labels, centroids) /\
    Forall (fun c => exists lat lon,
              snd c = (np.Finite lat, np.Finite lon) /\
              40 <= lat <= 42 /\ -80 <= lon <= -78) centroids.
Proof.
  destruct (cluster_wells_dbscan_accepts (fun _ _ _ => [0; 0; -1]%Z)
              [Spatial.mkWell 40.1 (-79.9) 0.5; Spatial.mkWell 40.1 (-79.8) 2.0;
               Spatial.mkWell 41.5 (-78.0) 0.1] 0.8 2) as (centroids & Hrun);
    [lra | lia |].
  eexists _, centroids. split; [exact Hrun|].
  apply (centroids_finite_within_bounds _ _ _ _ _ _ 40 42 (-80) (-78) Hrun).
  - reflexivity.
  - repeat constructor; cbn; lra.
Defined.

(** ** Survey time and the schedule of [main] *)

Lemma survey_time_count gdf labels k :
  Spatial.estimate_survey_time_per_cluster gdf labels k
  = 2 + INR (length (filter (fun l => Z.eqb l k) labels)) * 0.5.
Proof.
  unfold Spatial.estimate_survey_time_per_cluster. cbv zeta.
  unfold Spatial.SURVEY_TIME_BASELINE_MIN, Spatial.SURVEY_TIME_PER_WELL_MIN.
  do 3 f_equal. induction labels as [|l labels IH]; [reflexivity|].
  cbn [map filter]. destruct (Z.eqb l k); cbn [length]; now rewrite IH.
Qed.

Lemma fold_left_survey_time gdf labels ids acc :
  fold_left
    (fun total cluster_id =>
       total + Spatial.estimate_survey_time_per_cluster gdf labels
                 (Z.of_nat cluster_id)) ids acc
  = acc
    + np.sum (map (fun cluster_id =>
                     Spatial.estimate_survey_time_per_cluster gdf labels
                       (Z.of_nat cluster_id)) ids).
Proof.
  revert acc. induction ids as [|i ids IH]; intros acc.
  - cbn. unfold np.sum. cbn. lra.
  - cbn [fold_left map]. rewrite IH, sum_cons. lra.
Qed.

(** Wells whose label is one of the first [n] cluster ids. *)
Lemma clustered_count labels n :
  np.sum (map (fun i => INR (length (filter (fun l => Z.eqb l (Z.of_nat i)) labels)))
              (seq 0 n))
  = INR (length (filter (fun l => (0 <=? l)%Z && (l <? Z.of_nat n)%Z) labels)).
Proof.
  induction n as [|n IH].
  - cbn [seq map]. change (np.sum []) with 0.
    replace (filter _ labels) with (@nil Z); [reflexivity|].
    symmetry. induction labels as [|l labels IHl]; [reflexivity|].
    cbn [filter]. destruct (Z.leb_spec 0 l), (Z.ltb_spec l (Z.of_nat 0));
      cbn [andb]; try exact IHl; lia.
  - rewrite seq_S, map_app. cbn [map Nat.add].
    assert (Happ : forall xs ys, np.sum (xs ++ ys) = np.sum xs + np.sum ys).
    { induction xs as [|x xs IHx]; intros ys.
      - change (np.sum []) with 0. cbn [app]. lra.
      - cbn [app]. rewrite !sum_cons, IHx. lra. }
    rewrite Happ, IH, sum_cons. change (np.sum []) with 0.
    rewrite Rplus_0_r, <- plus_INR. f_equal.
    clear. induction labels as [|l labels IHl]; [reflexivity|].
    cbn [filter].
    destruct (Z.leb_spec 0 l), (Z.ltb_spec l (Z.of_nat n)),
      (Z.ltb_spec l (Z.of_nat (S n))), (Z.eqb_spec l (Z.of_nat n));
      cbn [andb length]; try lia.
Qed.

Lemma noise_split labels n :
  Forall (fun l => (-1 <= l < Z.of_nat n)%Z) labels ->
  (length (filter (fun l => (0 <=? l)%Z && (l <? Z.of_nat n)%Z) labels)
   + Spatial.n_noise labels = length labels)%nat.
Proof.
  unfold Spatial.n_noise. induction 1 as [|l labels Hl _ IH]; [reflexivity|].
  cbn [filter].
  destruct (Z.leb_spec 0 l), (Z.ltb_spec l (Z.of_nat n)), (Z.eqb_spec l (-1));
    cbn [andb length]; lia.
Qed.

(** X9. When every label is -1 or one of the cluster ids [0 .. n-1], the
    total survey time that [main] adds up is 2 minutes per cluster plus half a
    minute per clustered well, and the average survey time is
    [2 + 0.5 * avg_wells_per_cluster]. *)
Theorem total_survey_time_closed_form
  (gdf : list Spatial.well) (cluster_labels : list Z) (n_clusters : nat) :
  length cluster_labels = length gdf ->
  Forall (fun l => (-1 <= l < Z.of_nat n_clusters)%Z) cluster_labels ->
  Spatial.total_survey_time gdf cluster_labels n_clusters
  = 2 * INR n_clusters
    + 0.5 * (INR (length gdf) - INR (Spatial.n_noise cluster_labels)) /\
  ((0 < n_clusters)%nat ->
   Spatial.avg_survey_time gdf cluster_labels n_clusters
   = 2 + 0.5 * Spatial.avg_wells_per_cluster gdf cluster_labels n_clusters).
Proof.
  intros Hlen Hrange.
  assert (Htot : Spatial.total_survey_time gdf cluster_labels n_clusters
                 = 2 * INR n_clusters
                   + 0.5 * (INR (length gdf) - INR (Spatial.n_noise cluster_labels))).
  { unfold Spatial.total_survey_time. rewrite fold_left_survey_time.
    pose proof (noise_split cluster_labels n_clusters Hrange) as Hsplit.
    apply (f_equal INR) in Hsplit. rewrite plus_INR, Hlen in Hsplit.
    rewrite <- clustered_count in Hsplit.
    assert (Hsum : forall ids,
              np.sum (map (fun i => Spatial.estimate_survey_time_per_cluster
                                      gdf cluster_labels (Z.of_nat i)) ids)
              = 2 * INR (length ids)
                + 0.5 * np.sum (map (fun i => INR (length (filter
                                   (fun l => Z.eqb l (Z.of_nat i)) cluster_labels))) ids)).
    { induction ids as [|i ids IH].
      - cbn. unfold np.sum. cbn. lra.
      - cbn [map length]. rewrite !sum_cons, IH, survey_time_count, S_INR. lra. }
    rewrite Hsum, length_seq. lra. }
  split; [exact Htot|]. intros Hn.
  unfold Spatial.avg_survey_time, Spatial.avg_wells_per_cluster.
  destruct (Nat.ltb_spec 0 n_clusters); [|lia].
  rewrite Htot. assert (0 < INR n_clusters) by (now apply lt_0_INR).
  field. lra.
Qed.

Lemma total_survey_time_closed_form_witness :
  Spatial.total_survey_time
    [Spatial.mkWell 40.1 (-79.9) 0.5; Spatial.mkWell 40.1 (-79.8) 2.0;
     Spatial.mkWell 41.5 (-78.0) 0.1] [0; 0; -1]%Z 1
  = 2 * INR 1 + 0.5 * (INR 3 - INR (Spatial.n_noise [0; 0; -1]%Z)) /\
  Spatial.avg_survey_time
    [Spatial.mkWell 40.1 (-79.9) 0.5; Spatial.mkWell 40.1 (-79.8) 2.0;
     Spatial.mkWell 41.5 (-78.0) 0.1] [0; 0; -1]%Z 1
  = 2 + 0.5 * Spatial.avg_wells_per_cluster
            [Spatial.mkWell 40.1 (-79.9) 0.5; Spatial.mkWell 40.1 (-79.8) 2.0;
             Spatial.mkWell 41.5 (-78.0) 0.1] [0; 0; -1]%Z 1.
Proof.
  destruct (total_survey_time_closed_form
              [Spatial.mkWell 40.1 (-79.9) 0.5; Spatial.mkWell 40.1 (-79.8) 2.0;
               Spatial.mkWell 41.5 (-78.0) 0.1] [0; 0; -1]%Z 1) as [Ht Ha].
  - reflexivity.
  - repeat constructor; lia.
  - split; [exact Ht | apply Ha; lia].
Defined.

Lemma quarterly_clusters_div n :
  Spatial.quarterly_clusters n = Z.of_nat (n / 5).
Proof.
  unfold Spatial.quarterly_clusters.
  change Spatial.PERMIAN_QUARTERLY_COVERAGE with 0.20.
  rewrite int_nonneg by (pose proof (pos_INR n); lra).
  apply Zfloor_fifth.
Qed.

(** X10. [main] schedules no cluster per quarter for fewer than 5 clusters
    and then reports an infinite timeline; from 5 clusters on the timeline is
    [4 + 0.8 * (n mod 5) / (n div 5)] years: at least 4, below 8, and exactly
    4 when the number of clusters is a multiple of 5. *)
Theorem timeline_years_range (n_clusters : nat) :
  if (n_clusters <? 5)%nat then
    Spatial.quarterly_clusters n_clusters = 0%Z /\
    Spatial.timeline_years n_clusters = Spatial.Never
  else
    exists y,
      Spatial.timeline_years n_clusters = Spatial.Years y /\
      y = 4 + 0.8 * INR (n_clusters mod 5) / INR (n_clusters / 5) /\
      4 <= y < 8.
Proof.
  unfold Spatial.timeline_years.
  rewrite quarterly_clusters_div.
  change Spatial.PERMIAN_QUARTERLY_COVERAGE with 0.20.
  destruct (Nat.ltb_spec n_clusters 5) as [Hn|Hn].
  - rewrite Nat.div_small by lia. split; reflexivity.
  - assert (Hq : (1 <= n_clusters / 5)%nat)
      by (apply Nat.div_le_lower_bound; lia).
    destruct (Z.ltb_spec 0 (Z.of_nat (n_clusters / 5))); [|lia].
    eexists. split; [reflexivity|].
    rewrite <- INR_IZR_INZ.
    pose proof (Nat.div_mod_eq n_clusters 5) as E.
    pose proof (Nat.mod_upper_bound n_clusters 5 ltac:(lia)) as Hr.
    set (q := (n_clusters / 5)%nat) in *. set (r := (n_clusters mod 5)%nat) in *.
    apply (f_equal INR) in E. rewrite plus_INR, mult_INR in E.
    change (INR 5) with (1 + 1 + 1 + 1 + 1) in E.
    assert (Hq' : 1 <= INR q) by (change 1 with (INR 1); now apply le_INR).
    assert (Hr0 : 0 <= INR r) by apply pos_INR.
    assert (Hr4 : INR r <= 4).
    { replace 4 with (INR 4) by (cbn; lra). apply le_INR. lia. }
    rewrite E.
    replace ((((1 + 1 + 1 + 1 + 1) * INR q + INR r) * 0.20) / (INR q / 4))
      with (4 + 0.8 * INR r / INR q)
      by (replace 0.20 with (1 / 5) by lra; replace 0.8 with (4 / 5) by lra;
          field; lra).
    split; [reflexivity|].
    assert (Hfrac : 0 <= INR r / INR q <= 4).
    { split.
      - apply Rmult_le_pos; [lra|]. left. apply Rinv_0_lt_compat. lra.
      - apply Rmult_le_reg_r with (INR q); [lra|].
        unfold Rdiv. rewrite Rmult_assoc, Rinv_l by lra. nra. }
    unfold Rdiv in *; lra.
Qed.

(** ** Sampling without replacement keeps every row at most once *)

Lemma skipn_nth_cons {A} i (l : list A) x :
  (i < length l)%nat -> skipn i l = nth i l x :: skipn (S i) l.
Proof.
  revert l. induction i as [|i IH]; intros [|y l] Hi; cbn in Hi; try lia.
  - reflexivity.
  - cbn [skipn nth]. rewrite IH by lia. reflexivity.
Qed.

Lemma permutation_full {A} (l : list A) w :
  exists p w',
    np_random.permutation (length l) l w = (Ok p, w') /\ Permutation p l.
Proof.
  remember (length l) as n eqn:Hn. revert l w Hn.
  induction n as [|n IH]; intros l w Hn.
  - destruct l; [|discriminate]. exists [], w. split; [reflexivity|constructor].
  - destruct l as [|x l']; [discriminate|].
    cbn [np_random.permutation]. unfold bind at 1. rewrite randbelow_run.
    set (l := x :: l') in *.
    set (i := N.to_nat (tape w (pos w) mod N.of_nat (length l))).
    assert (Hi : (i < length l)%nat) by (apply randbelow_lt; cbn; lia).
    destruct (IH (firstn i l ++ skipn (S i) l) (consume w))
      as (rest & w' & Hrun & Hperm).
    { rewrite length_app, length_firstn, length_skipn. lia. }
    exists (nth i l x :: rest), w'. split.
    + unfold bind. rewrite Hrun. reflexivity.
    + rewrite Hperm.
      apply Permutation_trans with (firstn i l ++ nth i l x :: skipn (S i) l);
        [apply Permutation_middle|].
      rewrite <- (skipn_nth_cons i l x Hi), firstn_skipn. reflexivity.
Qed.

Lemma choice_no_replace_perm {A} (a : list A) size w :
  (0 <= size <= Z.of_nat (length a))%Z ->
  exists p w',
    np_random.choice_no_replace a size w = (Ok (firstn (Z.to_nat size) p), w') /\
    Permutation p a.
Proof.
  intros Hs. unfold np_random.choice_no_replace.
  destruct (Z.ltb_spec size 0); [lia|].
  destruct (Z.ltb_spec (Z.of_nat (length a)) size); [lia|].
  destruct (permutation_full a w) as (p & w' & Hrun & Hperm).
  exists p, w'. split; [|exact Hperm].
  unfold bind. rewrite Hrun. reflexivity.
Qed.


Lemma iloc_value {A} (df : list A) indices d w :
  (forall i, In i indices -> (i < length df)%nat) ->
  pd.iloc df indices w = (Ok (map (fun i => nth i df d) indices), w).
Proof.
  induction indices as [|i rest IH]; intros Hin; [reflexivity|].
  cbn [pd.iloc map].
  assert (Hi : (i < length df)%nat) by (apply Hin; now left).
  rewrite (nth_error_nth' df d Hi). unfold bind.
  rewrite IH by (intros j Hj; apply Hin; now right). reflexivity.
Qed.

Lemma map_nth_seq {A} (df : list A) d :
  map (fun i => nth i df d) (seq 0 (length df)) = df.
Proof.
  induction df as [|x df IH]; [reflexivity|].
  cbn [length seq map nth]. f_equal.
  rewrite <- seq_shift, map_map. exact IH.
Qed.




(** A trial can only succeed against a positive probability. *)
Lemma mapM_bernoulli_rel ps w :
  exists ds w',
    mapM np_random.bernoulli ps w = (Ok ds, w') /\
    Forall2 (fun p d => (d = 0 \/ d = 1)%Z /\ (d = 1%Z -> 0 < p)) ps ds.
Proof.
  revert w. induction ps as [|p ps IH]; intros w.
  - exists [], w. split; [reflexivity|constructor].
  - destruct (IH (consume w)) as (ds & w' & Hrun & Hrel).
    exists ((if Rltb (next_unit w) p then 1 else 0)%Z :: ds), w'. split.
    + cbn [mapM]. unfold bind at 1. rewrite bernoulli_run.
      unfold bind. rewrite Hrun. reflexivity.
    + constructor; [|exact Hrel]. unfold Rltb.
      pose proof (next_unit_range w).
      destruct (Rlt_dec (next_unit w) p); split; auto; try lra; discriminate.
Qed.

Lemma binomial1_rel ps w :
  Forall (fun p => 0 <= p <= 1) ps ->
  exists ds w',
    np_random.binomial1 ps w = (Ok ds, w') /\
    Forall2 (fun p d => (d = 0 \/ d = 1)%Z /\ (d = 1%Z -> 0 < p)) ps ds.
Proof.
  intros Hps. unfold np_random.binomial1.
  assert (E : forallb np_random.valid_p ps = true).
  { apply forallb_forall. intros p Hp.
    rewrite Forall_forall in Hps. specialize (Hps p Hp).
    unfold np_random.valid_p, Rleb.
    destruct (Rle_dec 0 p); [|lra]. destruct (Rle_dec p 1); [reflexivity|lra]. }
  rewrite E. apply mapM_bernoulli_rel.
Qed.

(** ** One event of [simulate_survey], in full *)

(** What ties the flags of an event to its wells: a flag is 0 or 1, and 1
    only for a well with a positive emission rate. *)
Lemma detected_rel_of_pods wells wind ds :
  Forall2 (fun p d => (d = 0 \/ d = 1)%Z /\ (d = 1%Z -> 0 < p))
    (map (fun e => Realistic.pod_bridger e wind) wells) ds ->
  Forall2 (fun e d => (d = 0 \/ d = 1)%Z /\ (d = 1%Z -> 0 < e)) wells ds.
Proof.
  revert ds. induction wells as [|e wells IH]; intros ds H; inversion H; subst.
  - constructor.
  - constructor; [|now apply IH].
    destruct H2 as [Hb Hp]. split; [exact Hb|]. intros Hd. specialize (Hp Hd).
    destruct (Rle_dec e 0) as [He|He]; [|lra].
    rewrite pod_bridger_nonpos in Hp by exact He. lra.
Qed.

Lemma simulate_survey_event df c w k :
  int_float (coverage_product df c) = Ok k ->
  (0 <= k <= Z.of_nat (length df))%Z ->
  exists rows wind ds w',
    Permutation rows df /\
    Realistic.simulate_survey df c w =
    (let wells := firstn (Z.to_nat k) rows in
     (Ok (Realistic.mkResults wind
            (map (fun e => Realistic.pod_bridger e wind) wells) ds
            (np.sum wells) (np.sum (np.mul wells ds))
            (length wells) (np.sumZ ds)
            (np.mean (map (fun e => Realistic.pod_bridger e wind) wells))),
      w')) /\
    Forall2 (fun e d => (d = 0 \/ d = 1)%Z /\ (d = 1%Z -> 0 < e))
      (firstn (Z.to_nat k) rows) ds /\
    1 <= wind <= 6.
Proof.
  intros Hk Hn. unfold coverage_product in Hk.
  unfold Realistic.simulate_survey. cbv zeta.
  unfold bind at 1, lift. rewrite Hk. cbv beta iota.
  destruct (choice_no_replace_perm (seq 0 (length df)) k w)
    as (p & w1 & Hsel & Hperm); [now rewrite length_seq|].
  run_with Hsel.
  assert (Hidx : forall i, In i (firstn (Z.to_nat k) p) -> (i < length df)%nat).
  { intros i Hi. apply in_firstn in Hi.
    apply (Permutation_in _ Hperm), in_seq in Hi. lia. }
  run_with (iloc_value df (firstn (Z.to_nat k) p) 0 w1 Hidx).
  run_with (realistic_sample_wind_run Realistic.default_tmy_path w1).
  set (wind := wind_drawn w1 (fs w1 Realistic.default_tmy_path)).
  set (w2 := consume _).
  rewrite <- firstn_map.
  set (rows := map (fun i => nth i df 0) p).
  destruct (binomial1_rel
              (map (fun e => Realistic.pod_bridger e wind)
                   (firstn (Z.to_nat k) rows)) w2)
    as (ds & w3 & Hds & Hrel).
  { apply Forall_forall. intros q Hq. apply in_map_iff in Hq.
    destruct Hq as (e & <- & _). apply pod_bridger_range. }
  run_with Hds.
  exists rows, wind, ds, w3. split; [|split; [reflexivity|split]].
  - unfold rows.
    apply Permutation_trans with (map (fun i => nth i df 0) (seq 0 (length df)));
      [apply Permutation_map; exact Hperm | now rewrite map_nth_seq].
  - now apply detected_rel_of_pods with wind.
  - apply wind_drawn_range.
Qed.

Lemma simulate_survey_inv df c w r w' :
  Realistic.simulate_survey df c w = (Ok r, w') ->
  exists k,
    int_float (coverage_product df c) = Ok k /\
    (0 <= k <= Z.of_nat (length df))%Z /\
    exists rows ds,
      Permutation rows df /\
      (let wells := firstn (Z.to_nat k) rows in
       r = Realistic.mkResults (Realistic.wind_speed_ms r)
             (map (fun e => Realistic.pod_bridger e (Realistic.wind_speed_ms r)) wells)
             ds (np.sum wells) (np.sum (np.mul wells ds))
             (length wells) (np.sumZ ds)
             (np.mean (map (fun e => Realistic.pod_bridger e
                                       (Realistic.wind_speed_ms r)) wells)) /\
       Forall2 (fun e d => (d = 0 \/ d = 1)%Z /\ (d = 1%Z -> 0 < e)) wells ds) /\
      1 <= Realistic.wind_speed_ms r <= 6.
Proof.
  intros Hrun.
  destruct (int_float (coverage_product df c)) as [k|e0] eqn:Hint;
    [|rewrite (simulate_survey_int_raises _ _ _ _ Hint) in Hrun; discriminate].
  assert (Hk : (0 <= k <= Z.of_nat (length df))%Z).
  { destruct (Z_le_dec 0 k) as [H0|H0];
      [destruct (Z_le_dec k (Z.of_nat (length df))) as [H1|H1]; [lia|]|];
      (destruct (simulate_survey_raises df c w k Hint) as (e & He); [lia|];
       rewrite He in Hrun; discriminate). }
  exists k. split; [reflexivity|]. split; [exact Hk|].
  destruct (simulate_survey_event df c w k Hint Hk)
    as (rows & wind & ds & w1 & Hperm & Hrun' & Hrel & Hwind).
  cbv zeta in Hrun'.
  rewrite Hrun' in Hrun. injection Hrun as <- _.
  exists rows, ds. cbn [Realistic.wind_speed_ms]. cbv zeta. auto.
Qed.

Lemma Forall2_bits {A} (P : A -> Z -> Prop) xs ds :
  Forall2 (fun e d => (d = 0 \/ d = 1)%Z /\ P e d) xs ds ->
  Forall (fun d => d = 0 \/ d = 1)%Z ds /\ length ds = length xs.
Proof.
  induction 1 as [|e d xs ds [Hb _] _ [IH1 IH2]].
  - split; [constructor | reflexivity].
  - split; [now constructor | cbn; lia].
Qed.

Lemma sum_mul_detected_nonneg wells ds :
  Forall2 (fun e d => (d = 0 \/ d = 1)%Z /\ (d = 1%Z -> 0 < e)) wells ds ->
  0 <= np.sum (np.mul wells ds).
Proof.
  induction 1 as [|e d wells ds [Hb Hp] _ IH].
  - cbn. unfold np.sum. cbn. lra.
  - cbn [np.mul]. rewrite sum_cons.
    destruct Hb as [-> | ->]; [lra|]. specialize (Hp eq_refl). lra.
Qed.

Lemma detected_none_of_nonpos wells ds :
  Forall (fun e => e <= 0) wells ->
  Forall2 (fun e d => (d = 0 \/ d = 1)%Z /\ (d = 1%Z -> 0 < e)) wells ds ->
  Forall (fun d => d = 0%Z) ds /\ np.sumZ ds = 0%Z /\ np.sum (np.mul wells ds) = 0.
Proof.
  intros Hw H. induction H as [|e d wells ds [Hb Hp] _ IH].
  - repeat split. constructor.
  - inversion Hw as [|? ? He Hw']; subst. destruct (IH Hw') as (I1 & I2 & I3).
    assert (Hd : d = 0%Z).
    { destruct Hb as [Hd|Hd]; [exact Hd|]. specialize (Hp Hd). lra. }
    subst d. split; [now constructor|]. split.
    + rewrite sumZ_cons. lia.
    + cbn [np.mul]. rewrite sum_cons, I3. lra.
Qed.

(** ** Properties of every result of [simulate_survey] *)

(** X11. In every result of [simulate_survey], [pods] and [detected] have
    one entry per sampled well, every pod is a probability in [0, 1], every
    flag is 0 or 1, the wind speed is in [1, 6], [wells_detected] lies
    between 0 and [wells_sampled], and [avg_pod] is a number in [0, 1] unless
    no well was sampled, when it is NaN. *)
Theorem simulate_survey_result_shape
  (emissions_df : list R) (coverage_pct : float) (w : world)
  (r : Realistic.results) (w' : world) :
  Realistic.simulate_survey emissions_df coverage_pct w = (Ok r, w') ->
  length (Realistic.pods r) = Realistic.wells_sampled r /\
  length (Realistic.detected r) = Realistic.wells_sampled r /\
  Forall (fun p => 0 <= p <= 1) (Realistic.pods r) /\
  Forall (fun d => d = 0 \/ d = 1)%Z (Realistic.detected r) /\
  (0 <= Realistic.wells_detected r <= Z.of_nat (Realistic.wells_sampled r))%Z /\
  1 <= Realistic.wind_speed_ms r <= 6 /\
  match Realistic.avg_pod r with
  | np.Finite m => 0 <= m <= 1 /\ Realistic.wells_sampled r <> 0%nat
  | np.NaN => Realistic.wells_sampled r = 0%nat
  end.
Proof.
  intros Hrun. apply simulate_survey_inv in Hrun.
  destruct Hrun as (k & _ & _ & rows & ds & _ & (Hr & Hrel) & Hwind). cbv zeta in *.
  set (wells := firstn _ rows) in *.
  destruct (Forall2_bits _ _ _ Hrel) as [Hbits Hlen].
  pose proof (sumZ_bits ds Hbits) as Hsum.
  assert (Hpods : Forall (fun p => 0 <= p <= 1)
                    (map (fun e => Realistic.pod_bridger e (Realistic.wind_speed_ms r))
                         wells)).
  { apply Forall_forall. intros p Hp. apply in_map_iff in Hp.
    destruct Hp as (e & <- & _). apply pod_bridger_range. }
  rewrite Hr. cbn [Realistic.pods Realistic.detected Realistic.wells_sampled
                   Realistic.wells_detected Realistic.wind_speed_ms Realistic.avg_pod].
  rewrite length_map.
  repeat (split; [first [reflexivity | assumption | lia]|]).
  clearbody wells. destruct wells as [|e wells']; [reflexivity|].
  assert (Hne : map (fun e0 => Realistic.pod_bridger e0 (Realistic.wind_speed_ms r))
                    (e :: wells') <> []) by discriminate.
  destruct (mean_bounds 0 1 _ Hne Hpods) as (m & Hm & Hb).
  rewrite Hm. split; [exact Hb | discriminate].
Qed.

Lemma simulate_survey_result_shape_witness :
  exists r w',
    Realistic.simulate_survey [0.5; 2.0; 0.0; 1.27] full_coverage world_missing
    = (Ok r, w') /\
    length (Realistic.pods r) = Realistic.wells_sampled r /\
    length (Realistic.detected r) = Realistic.wells_sampled r /\
    Forall (fun p => 0 <= p <= 1) (Realistic.pods r) /\
    Forall (fun d => d = 0 \/ d = 1)%Z (Realistic.detected r) /\
    (0 <= Realistic.wells_detected r <= Z.of_nat (Realistic.wells_sampled r))%Z /\
    1 <= Realistic.wind_speed_ms r <= 6 /\
    match Realistic.avg_pod r with
    | np.Finite m => 0 <= m <= 1 /\ Realistic.wells_sampled r <> 0%nat
    | np.NaN => Realistic.wells_sampled r = 0%nat
    end.
Proof.
  destruct (simulate_survey_run [0.5; 2.0; 0.0; 1.27] full_coverage world_missing
              4 count_full_4)
    as (wells & wind & ds & w1 & Hrun & _).
  { cbn [length]. lia. }
  eexists _, w1. split; [exact Hrun|].
  exact (simulate_survey_result_shape _ _ _ _ _ Hrun).
Defined.

(** X12. [simulate_survey] never detects a well whose emission rate is zero
    or negative: the detected emissions are never negative, whatever the
    readings, and over a portfolio without a positive rate every flag, the
    detected count and the detected emissions are 0. *)
Theorem simulate_survey_detects_only_positive
  (emissions_df : list R) (coverage_pct : float) (w : world)
  (r : Realistic.results) (w' : world) :
  Realistic.simulate_survey emissions_df coverage_pct w = (Ok r, w') ->
  0 <= Realistic.emissions_detected r /\
  (Forall (fun e => e <= 0) emissions_df ->
   Forall (fun d => d = 0%Z) (Realistic.detected r) /\
   Realistic.wells_detected r = 0%Z /\
   Realistic.emissions_detected r = 0).
Proof.
  intros Hrun. apply simulate_survey_inv in Hrun.
  destruct Hrun as (k & _ & _ & rows & ds & Hperm & (Hr & Hrel) & _). cbv zeta in *.
  set (wells := firstn _ rows) in *.
  rewrite Hr. cbn [Realistic.detected Realistic.wells_detected
                   Realistic.emissions_detected].
  split; [now apply sum_mul_detected_nonneg|].
  intros Hnp. apply detected_none_of_nonpos; [|exact Hrel].
  apply Forall_forall. intros e He. unfold wells in He. apply in_firstn in He.
  apply (Permutation_in _ Hperm) in He.
  rewrite Forall_forall in Hnp. now apply Hnp.
Qed.

Lemma simulate_survey_detects_only_positive_witness :
  exists r w',
    Realistic.simulate_survey [0.0; -0.2; 0.0] full_coverage world_missing
    = (Ok r, w') /\
    0 <= Realistic.emissions_detected r /\
    Forall (fun d => d = 0%Z) (Realistic.detected r) /\
    Realistic.wells_detected r = 0%Z /\
    Realistic.emissions_detected r = 0.
Proof.
  destruct (simulate_survey_run [0.0; -0.2; 0.0] full_coverage world_missing
              3 count_full_3)
    as (wells & wind & ds & w1 & Hrun & _).
  { cbn [length]. lia. }
  eexists _, w1. split; [exact Hrun|].
  destruct (simulate_survey_detects_only_positive _ _ _ _ _ Hrun) as [H0 Hz].
  split; [exact H0|]. apply Hz. repeat constructor; lra.
Defined.





(** ** One quarterly event, in full *)

Lemma boolean_index_cluster gdf labels cid :
  map fst (filter snd (combine gdf (map (fun l => Z.eqb l cid) labels)))
  = cluster_rows gdf labels cid.
Proof.
  unfold cluster_rows. revert labels.
  induction gdf as [|g gdf IH]; intros [|l labels]; try reflexivity.
  cbn [map combine filter snd]. destruct (Z.eqb l cid); cbn [map fst]; now rewrite IH.
Qed.

Lemma survey_cluster_exact gdf labels wind t cid w :
  length labels = length gdf ->
  exists ds w',
    let wells := cluster_rows gdf labels cid in
    Spatial.survey_cluster gdf labels wind t cid w =
    (Ok (Spatial.mkTally
           (Spatial.total_wells t + length wells)
           (Spatial.total_emissions_sampled t + np.sum (map Spatial.emission wells))
           (Spatial.detected_wells t + np.sumZ ds)
           (Spatial.detected_emissions t
            + np.sum (np.mul (map Spatial.emission wells) ds))
           (Spatial.pod_list t
            ++ map (fun g => Spatial.pod_bridger (Spatial.emission g) wind) wells)),
     w') /\
    Forall2 (fun e d => (d = 0 \/ d = 1)%Z /\ (d = 1%Z -> 0 < e))
      (map Spatial.emission wells) ds.
Proof.
  intros Hlen. unfold Spatial.survey_cluster. cbv zeta.
  destruct (boolean_index_run gdf (map (fun l => Z.eqb l cid) labels) w)
    as [Hrun _]; [now rewrite length_map|].
  run_with Hrun. rewrite boolean_index_cluster.
  set (wells := cluster_rows gdf labels cid).
  destruct (binomial1_rel
              (map (fun g => Spatial.pod_bridger (Spatial.emission g) wind) wells) w)
    as (ds & w' & Hds & Hrel).
  { apply Forall_forall. intros p Hp. apply in_map_iff in Hp.
    destruct Hp as (g & <- & _). rewrite pod_bridger_same. apply pod_bridger_range. }
  run_with Hds. exists ds, w'. split; [reflexivity|].
  apply detected_rel_of_pods with wind. rewrite map_map.
  rewrite <- pod_bridger_same. exact Hrel.
Qed.

Lemma list_sum_cons x l : list_sum (x :: l) = (x + list_sum l)%nat.
Proof. reflexivity. Qed.

(** What the loop adds to its accumulators over a list of cluster ids. *)
Lemma for_each_survey_exact gdf labels wind ids t w :
  length labels = length gdf ->
  exists t' w',
    for_each ids (Spatial.survey_cluster gdf labels wind) t w = (Ok t', w') /\
    Spatial.total_wells t'
    = (Spatial.total_wells t
       + list_sum (map (fun id => length (cluster_rows gdf labels id)) ids))%nat /\
    Spatial.total_emissions_sampled t'
    = Spatial.total_emissions_sampled t
      + np.sum (map (fun id => np.sum (map Spatial.emission
                                         (cluster_rows gdf labels id))) ids) /\
    (Spatial.detected_wells t <= Spatial.detected_wells t'
     <= Spatial.detected_wells t
        + Z.of_nat (Spatial.total_wells t' - Spatial.total_wells t))%Z /\
    Spatial.detected_emissions t <= Spatial.detected_emissions t' /\
    length (Spatial.pod_list t')
    = (length (Spatial.pod_list t)
       + (Spatial.total_wells t' - Spatial.total_wells t))%nat /\
    (Forall (fun p => 0 <= p <= 1) (Spatial.pod_list t) ->
     Forall (fun p => 0 <= p <= 1) (Spatial.pod_list t')).
Proof.
  intros Hlen. revert t w. induction ids as [|cid ids IH]; intros t w.
  - exists t, w. cbn [for_each map list_sum]. change (np.sum []) with 0.
    repeat split; try reflexivity; try lia; try lra; auto.
  - destruct (survey_cluster_exact gdf labels wind t cid w Hlen)
      as (ds & w1 & Hrun & Hrel). cbv zeta in Hrun.
    set (wells := cluster_rows gdf labels cid) in *.
    set (t1 := Spatial.mkTally _ _ _ _ _) in Hrun.
    destruct (IH t1 w1) as (t' & w' & Hrun' & Hw & He & Hdw & Hde & Hpl & Hpods).
    exists t', w'. split; [cbn [for_each]; run_with Hrun; exact Hrun'|].
    destruct (Forall2_bits _ _ _ Hrel) as [Hbits Hdlen].
    pose proof (sumZ_bits ds Hbits) as Hsum. rewrite Hdlen, length_map in Hsum.
    pose proof (sum_mul_detected_nonneg _ _ Hrel) as Hnn.
    subst t1. cbn [Spatial.total_wells Spatial.total_emissions_sampled
                  Spatial.detected_wells Spatial.detected_emissions
                  Spatial.pod_list] in *.
    cbn [map]. rewrite list_sum_cons, sum_cons. fold wells.
    rewrite length_app, length_map in Hpl.
    repeat split; try lia; try lra.
    intros Hp. apply Hpods. apply Forall_app. split; [exact Hp|].
    apply Forall_forall. intros p Hin. apply in_map_iff in Hin.
    destruct Hin as (g & <- & _). rewrite pod_bridger_same. apply pod_bridger_range.
Qed.

Lemma simulate_quarterly_survey_inv gdf labels ids w r w' :
  Spatial.simulate_quarterly_survey gdf labels ids w = (Ok r, w') ->
  Spatial.clusters_surveyed r = length ids /\
  Spatial.wells_surveyed r
  = list_sum (map (fun id => length (cluster_rows gdf labels id)) ids) /\
  Spatial.emissions_surveyed_kgph r
  = np.sum (map (fun id => np.sum (map Spatial.emission
                                     (cluster_rows gdf labels id))) ids) /\
  (0 <= Spatial.wells_detected r <= Z.of_nat (Spatial.wells_surveyed r))%Z /\
  0 <= Spatial.emissions_detected_kgph r /\
  (exists m, Spatial.avg_pod r = np.Finite m /\ 0 <= m <= 1) /\
  1 <= Spatial.wind_speed_ms r <= 6.
Proof.
  intros Hrun.
  destruct (Nat.eq_dec (length labels) (length gdf)) as [Hlen|Hlen].
  - unfold Spatial.simulate_quarterly_survey in Hrun. cbv zeta in Hrun.
    revert Hrun. run_with (spatial_sample_wind_run Spatial.default_tmy_path w).
    set (wind := wind_drawn w _).
    destruct (for_each_survey_exact gdf labels wind ids
                (Spatial.mkTally 0 0.0 0 0.0 []) (consume w) Hlen)
      as (t & w1 & Hfe & Hw & He & Hdw & Hde & Hpl & Hpods).
    run_with Hfe. unfold ret. intros Hrun. injection Hrun as <- _.
    cbn [Spatial.total_wells Spatial.total_emissions_sampled
         Spatial.detected_wells Spatial.detected_emissions Spatial.pod_list
         Spatial.clusters_surveyed Spatial.wells_surveyed
         Spatial.emissions_surveyed_kgph Spatial.wells_detected
         Spatial.emissions_detected_kgph Spatial.avg_pod Spatial.wind_speed_ms
         length] in *.
    split; [reflexivity|]. split; [lia|]. split; [lra|]. split; [lia|].
    split; [lra|]. split; [|apply wind_drawn_range].
    specialize (Hpods (Forall_nil _)).
    destruct (Spatial.pod_list t) as [|p ps] eqn:E.
    + exists 0.0. split; [reflexivity | lra].
    + apply mean_bounds; [discriminate | exact Hpods].
  - destruct ids as [|cid ids].
    + rewrite simulate_quarterly_survey_nil in Hrun. injection Hrun as <- _.
      cbn. change (np.sum []) with 0.
      repeat split; try lia; try lra; try apply wind_drawn_range.
      exists 0.0. split; [reflexivity | lra].
    + exfalso. unfold Spatial.simulate_quarterly_survey in Hrun. cbv zeta in Hrun.
      revert Hrun.
      run_with (spatial_sample_wind_run Spatial.default_tmy_path w).
      destruct (for_each_survey_raises gdf labels
                  (wind_drawn w (fs w Spatial.default_tmy_path)) cid ids
                  (Spatial.mkTally 0 0.0 0 0.0 []) (consume w) Hlen) as (e & He).
      unfold bind at 1. rewrite He. discriminate.
Qed.

(** Distinct cluster ids select disjoint sets of wells. *)
Lemma cluster_rows_cons g l gdf labels id :
  cluster_rows (g :: gdf) (l :: labels) id
  = if Z.eqb l id then g :: cluster_rows gdf labels id
    else cluster_rows gdf labels id.
Proof. unfold cluster_rows. cbn [combine filter snd]. now destruct (Z.eqb l id). Qed.

Lemma list_sum_zeros {A} (ids : list A) :
  list_sum (map (fun _ => 0%nat) ids) = 0%nat.
Proof.
  induction ids as [|i ids IH]; [reflexivity|].
  cbn [map]. rewrite list_sum_cons. lia.
Qed.

Lemma sum_zeros {A} (ids : list A) : np.sum (map (fun _ => 0) ids) = 0.
Proof.
  induction ids as [|i ids IH]; [reflexivity|].
  cbn [map]. rewrite sum_cons. lra.
Qed.

Lemma distinct_clusters_count gdf labels ids :
  NoDup ids ->
  (list_sum (map (fun id => length (cluster_rows gdf labels id)) ids)
   <= length gdf)%nat.
Proof.
  intros Hnd. revert labels. induction gdf as [|g gdf IH]; intros labels.
  - replace (map _ ids) with (map (fun _ : Z => 0%nat) ids).
    + rewrite list_sum_zeros. lia.
    + apply map_ext. intros id. unfold cluster_rows. reflexivity.
  - destruct labels as [|l labels].
    + replace (map _ ids) with (map (fun _ : Z => 0%nat) ids).
      * rewrite list_sum_zeros. lia.
      * apply map_ext. intros id. reflexivity.
    + specialize (IH labels). cbn [length].
      assert (H : (list_sum (map (fun id => length (cluster_rows (g :: gdf) (l :: labels) id)) ids)
                   <= 1 + list_sum (map (fun id => length (cluster_rows gdf labels id)) ids))%nat);
        [|lia].
      clear IH. induction Hnd as [|id ids Hid Hnd IHn]; [cbn; lia|].
      cbn [map]. rewrite !list_sum_cons, cluster_rows_cons.
      destruct (Z.eqb_spec l id) as [->|Hne]; cbn [length]; [|lia].
      assert (Hrest : list_sum (map (fun id0 => length (cluster_rows (g :: gdf) (id :: labels) id0)) ids)
                      = list_sum (map (fun id0 => length (cluster_rows gdf labels id0)) ids)).
      { f_equal. apply map_ext_in. intros id0 Hin. rewrite cluster_rows_cons.
        destruct (Z.eqb_spec id id0) as [->|_]; [contradiction | reflexivity]. }
      lia.
Qed.

Lemma distinct_clusters_emissions gdf labels ids :
  NoDup ids ->
  Forall (fun g => 0 <= Spatial.emission g) gdf ->
  np.sum (map (fun id => np.sum (map Spatial.emission (cluster_rows gdf labels id))) ids)
  <= np.sum (map Spatial.emission gdf).
Proof.
  intros Hnd Hpos. revert labels. induction Hpos as [|g gdf Hg Hpos IH]; intros labels.
  - replace (map _ ids) with (map (fun _ : Z => 0) ids).
    + change (np.sum (map Spatial.emission [])) with 0.
      rewrite sum_zeros. lra.
    + apply map_ext. intros id. reflexivity.
  - destruct labels as [|l labels].
    + replace (map _ ids) with (map (fun _ : Z => 0) ids).
      * pose proof (sum_nonneg (map Spatial.emission (g :: gdf))) as Hs.
        assert (0 <= np.sum (map Spatial.emission (g :: gdf))).
        { apply Hs. apply Forall_forall. intros x Hx. apply in_map_iff in Hx.
          destruct Hx as (y & <- & Hy). destruct Hy as [<-|Hy]; [exact Hg|].
          rewrite Forall_forall in Hpos. now apply Hpos. }
        rewrite sum_zeros. lra.
      * apply map_ext. intros id. reflexivity.
    + specialize (IH labels). cbn [map]. rewrite sum_cons.
      assert (H : np.sum (map (fun id => np.sum (map Spatial.emission
                                  (cluster_rows (g :: gdf) (l :: labels) id))) ids)
                  <= Spatial.emission g
                     + np.sum (map (fun id => np.sum (map Spatial.emission
                                  (cluster_rows gdf labels id))) ids));
        [|lra].
      clear IH. induction Hnd as [|id ids Hid Hnd IHn];
        [change (np.sum (map _ [])) with 0; lra|].
      cbn [map]. rewrite !sum_cons, cluster_rows_cons.
      destruct (Z.eqb_spec l id) as [->|Hne].
      * cbn [map]. rewrite sum_cons.
        assert (Hrest : map (fun id0 => np.sum (map Spatial.emission
                               (cluster_rows (g :: gdf) (id :: labels) id0))) ids
                        = map (fun id0 => np.sum (map Spatial.emission
                               (cluster_rows gdf labels id0))) ids).
        { apply map_ext_in. intros id0 Hin. rewrite cluster_rows_cons.
          destruct (Z.eqb_spec id id0) as [->|_]; [contradiction | reflexivity]. }
        rewrite Hrest. lra.
      * lra.
Qed.

Lemma simulate_quarterly_survey_detected_le gdf labels ids w r w' :
  Spatial.simulate_quarterly_survey gdf labels ids w = (Ok r, w') ->
  Forall (fun g => 0 <= Spatial.emission g) gdf ->
  Spatial.emissions_detected_kgph r <= Spatial.emissions_surveyed_kgph r.
Proof.
  intros Hrun Hgdf.
  destruct (Nat.eq_dec (length labels) (length gdf)) as [Hlen|Hlen].
  - destruct (simulate_quarterly_survey_run gdf labels ids w Hlen)
      as (r1 & w1 & Hrun' & _ & _ & Hinv).
    rewrite Hrun' in Hrun. injection Hrun as <- _. now destruct (Hinv Hgdf).
  - destruct ids as [|cid ids].
    + rewrite simulate_quarterly_survey_nil in Hrun. injection Hrun as <- _.
      cbn. lra.
    + exfalso. unfold Spatial.simulate_quarterly_survey in Hrun. cbv zeta in Hrun.
      revert Hrun.
      run_with (spatial_sample_wind_run Spatial.default_tmy_path w).
      destruct (for_each_survey_raises gdf labels
                  (wind_drawn w (fs w Spatial.default_tmy_path)) cid ids
                  (Spatial.mkTally 0 0.0 0 0.0 []) (consume w) Hlen) as (e & He).
      unfold bind at 1. rewrite He. discriminate.
Qed.

Lemma quarterly_within_portfolio gdf labels ids w r w' :
  Spatial.simulate_quarterly_survey gdf labels ids w = (Ok r, w') ->
  NoDup ids ->
  (Spatial.wells_surveyed r <= length gdf)%nat /\
  (Forall (fun g => 0 <= Spatial.emission g) gdf ->
   Spatial.emissions_surveyed_kgph r <= np.sum (map Spatial.emission gdf) /\
   Spatial.emissions_detected_kgph r <= np.sum (map Spatial.emission gdf)).
Proof.
  intros Hrun Hnd.
  pose proof (simulate_quarterly_survey_inv _ _ _ _ _ _ Hrun)
    as (_ & Hw & He & _).
  split.
  - rewrite Hw. now apply distinct_clusters_count.
  - intros Hpos.
    pose proof (simulate_quarterly_survey_detected_le _ _ _ _ _ _ Hrun Hpos).
    pose proof (distinct_clusters_emissions gdf labels ids Hnd Hpos).
    rewrite <- He in *. lra.
Qed.

(** ** Properties of every result of [simulate_quarterly_survey] *)

(** X15. In every result of [simulate_quarterly_survey], [clusters_surveyed]
    is the length of the cluster list, [wells_surveyed] and
    [emissions_surveyed_kgph] add up, over the listed ids, the wells carrying
    that label and their emission rates (a cluster listed twice counts
    twice), [wells_detected] lies between 0 and [wells_surveyed], the detected
    emissions are not negative, the wind speed is in [1, 6], and [avg_pod] is
    always a number in [0, 1], never NaN. *)
Theorem simulate_quarterly_survey_result_shape
  (gdf : list Spatial.well) (cluster_labels cluster_id_list : list Z)
  (w : world) (r : Spatial.result) (w' : world) :
  Spatial.simulate_quarterly_survey gdf cluster_labels cluster_id_list w
  = (Ok r, w') ->
  Spatial.clusters_surveyed r = length cluster_id_list /\
  Spatial.wells_surveyed r
  = list_sum (map (fun id => length (cluster_rows gdf cluster_labels id))
                  cluster_id_list) /\
  Spatial.emissions_surveyed_kgph r
  = np.sum (map (fun id => np.sum (map Spatial.emission
                                     (cluster_rows gdf cluster_labels id)))
                cluster_id_list) /\
  (0 <= Spatial.wells_detected r <= Z.of_nat (Spatial.wells_surveyed r))%Z /\
  0 <= Spatial.emissions_detected_kgph r /\
  (exists m, Spatial.avg_pod r = np.Finite m /\ 0 <= m <= 1) /\
  1 <= Spatial.wind_speed_ms r <= 6.
Proof. apply simulate_quarterly_survey_inv. Qed.

Lemma simulate_quarterly_survey_result_shape_witness :
  exists r w',
    Spatial.simulate_quarterly_survey
      [Spatial.mkWell 40.1 (-79.9) 0.5; Spatial.mkWell 40.1 (-79.8) 2.0;
       Spatial.mkWell 41.5 (-78.0) 0.1] [0; 0; -1]%Z [0]%Z world_missing
    = (Ok r, w') /\
    Spatial.clusters_surveyed r = 1%nat /\
    Spatial.wells_surveyed r = 2%nat /\
    (0 <= Spatial.wells_detected r <= Z.of_nat (Spatial.wells_surveyed r))%Z /\
    0 <= Spatial.emissions_detected_kgph r /\
    (exists m, Spatial.avg_pod r = np.Finite m /\ 0 <= m <= 1) /\
    1 <= Spatial.wind_speed_ms r <= 6.
Proof.
  destruct (simulate_quarterly_survey_run
              [Spatial.mkWell 40.1 (-79.9) 0.5; Spatial.mkWell 40.1 (-79.8) 2.0;
               Spatial.mkWell 41.5 (-78.0) 0.1] [0; 0; -1]%Z [0]%Z world_missing
              eq_refl) as (r & w1 & Hrun & _).
  exists r, w1. split; [exact Hrun|].
  destruct (simulate_quarterly_survey_result_shape _ _ _ _ _ _ Hrun)
    as (H1 & H2 & _ & H4 & H5 & H6 & H7).
  repeat split; try assumption; try apply H4; try apply H7.
Defined.

(** X16. Over a list of distinct cluster ids, [simulate_quarterly_survey]
    counts no well twice: the wells surveyed never exceed the wells of the
    frame, and with non-negative emission rates the surveyed and the detected
    emissions never exceed the portfolio total. *)
Theorem simulate_quarterly_survey_within_portfolio
  (gdf : list Spatial.well) (cluster_labels cluster_id_list : list Z)
  (w : world) (r : Spatial.result) (w' : world) :
  Spatial.simulate_quarterly_survey gdf cluster_labels cluster_id_list w
  = (Ok r, w') ->
  NoDup cluster_id_list ->
  Forall (fun g => 0 <= Spatial.emission g) gdf ->
  (Spatial.wells_surveyed r <= length gdf)%nat /\
  Spatial.emissions_surveyed_kgph r <= np.sum (map Spatial.emission gdf) /\
  Spatial.emissions_detected_kgph r <= np.sum (map Spatial.emission gdf).
Proof.
  intros Hrun Hnd Hpos.
  destruct (quarterly_within_portfolio _ _ _ _ _ _ Hrun Hnd) as [Hw He].
  split; [exact Hw | exact (He Hpos)].
Qed.

Lemma simulate_quarterly_survey_within_portfolio_witness :
  exists r w',
    Spatial.simulate_quarterly_survey
      [Spatial.mkWell 40.1 (-79.9) 0.5; Spatial.mkWell 40.1 (-79.8) 2.0;
       Spatial.mkWell 41.5 (-78.0) 0.1] [0; 0; 1]%Z [1; 0]%Z world_missing
    = (Ok r, w') /\
    (Spatial.wells_surveyed r <= 3)%nat /\
    Spatial.emissions_surveyed_kgph r
    <= np.sum (map Spatial.emission
                 [Spatial.mkWell 40.1 (-79.9) 0.5; Spatial.mkWell 40.1 (-79.8) 2.0;
                  Spatial.mkWell 41.5 (-78.0) 0.1]) /\
    Spatial.emissions_detected_kgph r
    <= np.sum (map Spatial.emission
                 [Spatial.mkWell 40.1 (-79.9) 0.5; Spatial.mkWell 40.1 (-79.8) 2.0;
                  Spatial.mkWell 41.5 (-78.0) 0.1]).
Proof.
  destruct (simulate_quarterly_survey_run
              [Spatial.mkWell 40.1 (-79.9) 0.5; Spatial.mkWell 40.1 (-79.8) 2.0;
               Spatial.mkWell 41.5 (-78.0) 0.1] [0; 0; 1]%Z [1; 0]%Z world_missing
              eq_refl) as (r & w1 & Hrun & _).
  exists r, w1. split; [exact Hrun|].
  apply (simulate_quarterly_survey_within_portfolio _ _ _ _ _ _ Hrun).
  - repeat constructor; cbn; intuition lia.
  - repeat constructor; cbn; lra.
Defined.

(** ** One quarter of [main] *)




(** ** The strategy aggregator, beyond scenario D *)

(** X18. With a non-zero portfolio total, a policy of 0% annual coverage
    gets 0 for the annual and the cumulative detection, 0% for both
    mitigation figures and 0 survey days, and the cost-benefit loop of [main]
    prints 'N/A' for it. *)
Theorem calculate_strategy_zero_coverage
  (strategy_name : string)
  (years mean_detection_per_survey_kgph total_portfolio_kgph : R) :
  total_portfolio_kgph <> 0 ->
  let r := Strategy.calculate_strategy strategy_name 0 years
             mean_detection_per_survey_kgph total_portfolio_kgph in
  Strategy.annual_detection_kgph r = 0 /\
  Strategy.cumulative_detection_5yr_kgph r = 0 /\
  Strategy.annual_mitigation_pct r = 0 /\
  Strategy.cumulative_mitigation_5yr_pct r = 0 /\
  Strategy.days_per_year r = 0 /\
  Strategy.cost_per_kgph r = None.
Proof.
  intros HT. cbv zeta.
  unfold Strategy.cost_per_kgph, Strategy.calculate_strategy.
  cbn [Strategy.annual_detection_kgph Strategy.cumulative_detection_5yr_kgph
       Strategy.annual_mitigation_pct Strategy.cumulative_mitigation_5yr_pct
       Strategy.days_per_year].
  assert (E : 0 / 100.0 * mean_detection_per_survey_kgph
              * (total_portfolio_kgph / 100.0) = 0) by lra.
  rewrite E. replace (0 * years) with 0 by lra.
  replace (0 / total_portfolio_kgph) with 0 by (unfold Rdiv; lra).
  destruct (Rlt_dec 0 0) as [H|_]; [lra|].
  repeat split; lra.
Qed.

Lemma calculate_strategy_zero_coverage_witness :
  Strategy.annual_detection_kgph
    (Strategy.calculate_strategy "Status Quo (No LDAR)" 0 5 230.2 55389.2) = 0 /\
  Strategy.cumulative_detection_5yr_kgph
    (Strategy.calculate_strategy "Status Quo (No LDAR)" 0 5 230.2 55389.2) = 0 /\
  Strategy.annual_mitigation_pct
    (Strategy.calculate_strategy "Status Quo (No LDAR)" 0 5 230.2 55389.2) = 0 /\
  Strategy.cumulative_mitigation_5yr_pct
    (Strategy.calculate_strategy "Status Quo (No LDAR)" 0 5 230.2 55389.2) = 0 /\
  Strategy.days_per_year
    (Strategy.calculate_strategy "Status Quo (No LDAR)" 0 5 230.2 55389.2) = 0 /\
  Strategy.cost_per_kgph
    (Strategy.calculate_strategy "Status Quo (No LDAR)" 0 5 230.2 55389.2) = None.
Proof.
  apply (calculate_strategy_zero_coverage "Status Quo (No LDAR)" 5 230.2 55389.2).
  lra.
Defined.

(** X19. With a non-zero portfolio total, the mitigation percentages that
    [calculate_strategy] reports do not depend on the portfolio total: the
    annual one is [annual_survey_pct * mean_detection_per_survey_kgph / 100],
    and the cumulative figures are [years] times the annual ones. *)
Theorem calculate_strategy_mitigation
  (strategy_name : string)
  (annual_survey_pct years mean_detection_per_survey_kgph total_portfolio_kgph : R) :
  total_portfolio_kgph <> 0 ->
  let r := Strategy.calculate_strategy strategy_name annual_survey_pct years
             mean_detection_per_survey_kgph total_portfolio_kgph in
  Strategy.annual_mitigation_pct r
  = annual_survey_pct * mean_detection_per_survey_kgph / 100 /\
  Strategy.cumulative_mitigation_5yr_pct r
  = years * Strategy.annual_mitigation_pct r /\
  Strategy.cumulative_detection_5yr_kgph r
  = years * Strategy.annual_detection_kgph r.
Proof.
  intros HT. cbv zeta. unfold Strategy.calculate_strategy.
  cbn [Strategy.annual_detection_kgph Strategy.cumulative_detection_5yr_kgph
       Strategy.annual_mitigation_pct Strategy.cumulative_mitigation_5yr_pct].
  replace 100.0 with 100 by lra.
  repeat split; field; exact HT.
Qed.

Lemma calculate_strategy_mitigation_witness :
  Strategy.annual_mitigation_pct
    (Strategy.calculate_strategy "Intensive (40% annual)" 40 5 230.2 55389.2)
  = 40 * 230.2 / 100 /\
  Strategy.cumulative_mitigation_5yr_pct
    (Strategy.calculate_strategy "Intensive (40% annual)" 40 5 230.2 55389.2)
  = 5 * Strategy.annual_mitigation_pct
          (Strategy.calculate_strategy "Intensive (40% annual)" 40 5 230.2 55389.2) /\
  Strategy.cumulative_detection_5yr_kgph
    (Strategy.calculate_strategy "Intensive (40% annual)" 40 5 230.2 55389.2)
  = 5 * Strategy.annual_detection_kgph
          (Strategy.calculate_strategy "Intensive (40% annual)" 40 5 230.2 55389.2).
Proof.
  apply (calculate_strategy_mitigation "Intensive (40% annual)" 40 5 230.2 55389.2).
  lra.
Defined.

(** X20. In the cost-benefit loop of [main], every policy with positive
    coverage, yield and portfolio total gets the same cost per kg/h,
    [250000000 / (yield * total)], whatever its coverage and horizon. *)
Theorem cost_per_kgph_constant
  (strategy_name : string)
  (annual_survey_pct years mean_detection_per_survey_kgph total_portfolio_kgph : R) :
  0 < annual_survey_pct -> 0 < mean_detection_per_survey_kgph ->
  0 < total_portfolio_kgph ->
  Strategy.cost_per_kgph
    (Strategy.calculate_strategy strategy_name annual_survey_pct years
       mean_detection_per_survey_kgph total_portfolio_kgph)
  = Some (250000000 / (mean_detection_per_survey_kgph * total_portfolio_kgph)).
Proof.
  intros Hp Hy HT.
  unfold Strategy.cost_per_kgph, Strategy.annual_cost, Strategy.calculate_strategy.
  cbn [Strategy.annual_detection_kgph Strategy.annual_survey_pct].
  replace 100.0 with 100 by lra. replace 20.0 with 20 by lra.
  assert (Hd : 0 < annual_survey_pct / 100 * mean_detection_per_survey_kgph
                   * (total_portfolio_kgph / 100)).
  { apply Rmult_lt_0_compat; [apply Rmult_lt_0_compat|]; lra. }
  destruct (Rlt_dec 0 _) as [_|H]; [|contradiction].
  f_equal. field. repeat split; lra.
Qed.

Lemma cost_per_kgph_constant_witness :
  Strategy.cost_per_kgph
    (Strategy.calculate_strategy "Minimum (5% annual)" 5 5 230.2 55389.2)
  = Some (250000000 / (230.2 * 55389.2)).
Proof.
  apply (cost_per_kgph_constant "Minimum (5% annual)" 5 5 230.2 55389.2); lra.
Defined.

(** ** More on the wind sampler and the detection curve *)

(** X21. The ['WindSpeed'] column takes precedence: when the TMY table has
    it and none of its values is flyable, the sampler falls back to the
    uniform draw even if a ['wind_speed'] column is there as well. *)
Theorem wind_column_precedence
  (tmy_path : string) (w : world) (df : list (string * list (option R))) :
  fs w tmy_path = Csv df ->
  pd.has_column "WindSpeed" df = true ->
  filter (fun x => Rleb Realistic.MIN_WIND_MS x && Rleb x Realistic.MAX_WIND_MS)
         (pd.dropna_values "WindSpeed" df) = [] ->
  Realistic.sample_wind_from_tmy tmy_path w
  = (Ok (1.0 + (6.0 - 1.0) * next_unit w),
     consume (say w "Warning: No flyable wind speeds in TMY. Using [1-6] m/s.")) /\
  Spatial.sample_wind_from_tmy tmy_path w
  = (Ok (1.0 + (6.0 - 1.0) * next_unit w), consume w).
Proof.
  intros Hfs Hcol Hfly.
  rewrite realistic_sample_wind_run, spatial_sample_wind_run, Hfs.
  unfold wind_drawn, degraded, flyable_values, realistic_warning.
  rewrite Hcol, Hfly. cbn [orb]. split; reflexivity.
Qed.

Lemma wind_column_precedence_witness :
  Realistic.sample_wind_from_tmy Realistic.default_tmy_path world_two_columns
  = (Ok (1.0 + (6.0 - 1.0) * next_unit world_two_columns),
     consume (say world_two_columns
                "Warning: No flyable wind speeds in TMY. Using [1-6] m/s.")) /\
  Spatial.sample_wind_from_tmy Realistic.default_tmy_path world_two_columns
  = (Ok (1.0 + (6.0 - 1.0) * next_unit world_two_columns),
     consume world_two_columns).
Proof.
  unfold world_two_columns.
  apply (wind_column_precedence Realistic.default_tmy_path
           (mkWorld (fun _ => Csv [("WindSpeed"%string, [Some 7.5; None]);
                                   ("wind_speed"%string, [Some 3.0])])
                    (fun _ => 0%N) 0 [])
           [("WindSpeed"%string, [Some 7.5; None]);
            ("wind_speed"%string, [Some 3.0])]).
  - reflexivity.
  - reflexivity.
  - change (pd.dropna_values "WindSpeed"
              [("WindSpeed"%string, [Some 7.5; None]);
               ("wind_speed"%string, [Some 3.0])]) with [7.5].
    cbn [filter]. unfold Rleb, Realistic.MIN_WIND_MS, Realistic.MAX_WIND_MS.
    destruct (Rle_dec 1.0 7.5); [|lra]. destruct (Rle_dec 7.5 6.0); [lra|].
    reflexivity.
Defined.

(** X22. In [pod_bridger], [delta] m/s more wind acts exactly like an
    emission rate multiplied by [exp (0.3 * delta)]. *)
Theorem pod_bridger_wind_as_emission (e w delta : R) :
  0 < e ->
  Realistic.pod_bridger e (w + delta)
  = Realistic.pod_bridger (e * exp (0.3 * delta)) w /\
  Spatial.pod_bridger e (w + delta)
  = Spatial.pod_bridger (e * exp (0.3 * delta)) w.
Proof.
  intros He. rewrite pod_bridger_same.
  assert (Hx : 0 < e * exp (0.3 * delta)).
  { apply Rmult_lt_0_compat; [exact He | apply exp_pos]. }
  assert (H : Realistic.pod_bridger e (w + delta)
              = Realistic.pod_bridger (e * exp (0.3 * delta)) w).
  { rewrite !pod_bridger_pos by assumption.
    rewrite ln_mult by (try apply exp_pos; lra). rewrite ln_exp.
    f_equal. lra. }
  split; exact H.
Qed.

Lemma pod_bridger_wind_as_emission_witness :
  Realistic.pod_bridger 1.27 (3.5 + 1)
  = Realistic.pod_bridger (1.27 * exp (0.3 * 1)) 3.5 /\
  Spatial.pod_bridger 1.27 (3.5 + 1)
  = Spatial.pod_bridger (1.27 * exp (0.3 * 1)) 3.5.
Proof. apply (pod_bridger_wind_as_emission 1.27 3.5 1). lra. Defined.
